(** * Slic3r::opt: the NLopt-backed optimizer (libslic3r/Optimizer.hpp)

    A shallow embedding of the header: the data model ([Result], [Bound],
    [StopCriteria]), the tuple unpacking helpers ([to_tuple_],
    [carray_tuple]), the RAII wrapper [NLopt], the single-algorithm binding
    [NLoptOpt<NLoptAlg<alg>>] with its objective adapter [optfunc], the
    composed binding [NLoptOpt<NLoptAlgComb<glob, loc>>] and the public
    [Optimizer] front door.

    C++ [double] is IEEE-754 binary64, modelled by [spec_float] at precision
    53 and exponent bound 1024.  The NLopt C library is an external
    collaborator: its handles live in a table of solver contexts and every
    call into it is recorded in a call log.  What a solver does in a run
    (where it evaluates the objective, when it stops, what it reports) is a
    parameter of the development; the evaluations themselves are calls of
    the adapter registered with the context, on the pointer registered with
    it.  A computation that has no defined behaviour has no outcome. *)

From Stdlib Require Import ZArith List Bool Lia.
From Stdlib Require Import Floats.SpecFloat.
From stdpp Require Import base option list gmap.

Local Open Scope Z_scope.

(** ** IEEE-754 binary64 *)

Module Double.

Definition prec : Z := 53.
Definition emax : Z := 1024.

Definition double : Type := spec_float.

(** The quiet NaN that [std::nan] returns, and [std::isnan]. *)
Definition nan : double := S754_nan.

Definition isnan (x : double) : bool :=
  match x with
  | S754_nan => true
  | _ => false
  end.

Definition zero : double := S754_zero false.

(** The comparison [a < b] on doubles (false as soon as one side is NaN). *)
Definition ltb (a b : double) : bool := SFltb a b.

(** [std::numeric_limits<double>::min()]: the smallest positive normalized
    value, 2^-1022. *)
Definition numeric_limits_min : double := S754_finite false (2 ^ 52) (-1074).

(** [std::numeric_limits<double>::max()]: the largest finite value,
    (2^53 - 1) * 2^971. *)
Definition numeric_limits_max : double := SFmax_float prec emax.

(** [std::numeric_limits<double>::lowest()]: the most negative finite
    value, [-max()]. *)
Definition numeric_limits_lowest : double := SFopp numeric_limits_max.

(** Integer-to-floating conversion (round to nearest even). *)
Definition of_Z (z : Z) : double := binary_normalize prec emax z 0 false.

(** Floating-to-integer conversion truncates toward zero; it has no value
    on NaN and on the infinities. *)
Definition trunc (x : double) : option Z :=
  match x with
  | S754_zero _ => Some 0
  | S754_finite s m e =>
      Some (cond_Zopp s
              (match e with
               | Zneg k => Z.shiftr (Zpos m) (Zpos k)
               | _ => Z.shiftl (Zpos m) e
               end))
  | S754_infinity _ | S754_nan => None
  end.

(** Conversion of a double to [unsigned] (32 bits): the truncated value
    when it is representable; otherwise the behaviour is undefined, which
    is [None] here. *)
Definition UINT_MAX : Z := 2 ^ 32 - 1.

Definition to_unsigned (x : double) : option Z :=
  match trunc x with
  | Some z => if (0 <=? z) && (z <=? UINT_MAX) then Some z else None
  | None => None
  end.

(** Conversion of a double to [int] (32 bits), as in the call of a function
    with an [int] parameter on a [double] argument: the truncated value
    when it is representable, and undefined otherwise. *)
Definition INT_MIN : Z := - 2 ^ 31.
Definition INT_MAX : Z := 2 ^ 31 - 1.

Definition to_int (x : double) : option Z :=
  match trunc x with
  | Some z => if (INT_MIN <=? z) && (z <=? INT_MAX) then Some z else None
  | None => None
  end.

(** Literals: [d z] is the integer [z] as a double. *)
Definition d (z : Z) : double := of_Z z.

(** [half z] is [z / 2]. *)
Definition half (z : Z) : double := binary_normalize prec emax z (-1) false.

End Double.

Import Double.

(** ** The data model *)

(** [template<size_t N> struct Result]: [std::array<double, N>] is a list
    of [N] doubles.  The struct has no member initializers: [score] holds a
    value once one has been stored in it, and is [None] until then. *)
Record Result : Type := {
  resultcode : Z;
  optimum : list double;
  score : option double;
}.

(** [class Bound]: an interval of possible input values. *)
Module Bound.

Record t : Type := { m_min : double; m_max : double }.

(** [Bound(double min = std::numeric_limits<double>::min(),
          double max = std::numeric_limits<double>::max())]; an argument
    left out is [None]. *)
Definition ctor (min max : option double) : t :=
  {| m_min := default numeric_limits_min min;
     m_max := default numeric_limits_max max |}.

Definition min (b : t) : double := m_min b.
Definition max (b : t) : double := m_max b.

End Bound.

(** [Bounds<N>] and [Input<N>] are [std::array]s. *)
Definition Bounds : Type := list Bound.t.
Definition Input : Type := list double.

(** [class StopCriteria].  The predicate [m_stop_condition] is a
    [std::function<bool()>]: a closure over state of the caller, here a
    state [U] that the call may read and change. *)
Module StopCriteria.
Section WithUser.

Context {U : Type}.

Record t : Type := {
  m_abs_score_diff : double;
  m_rel_score_diff : double;
  m_stop_score : double;
  m_stop_condition : U -> bool * U;
  m_max_iterations : Z;            (* unsigned *)
}.

(** The default member initializers. *)
Definition ctor : t :=
  {| m_abs_score_diff := nan;
     m_rel_score_diff := nan;
     m_stop_score := nan;
     m_stop_condition := fun u => (false, u);
     m_max_iterations := 0 |}.

(** The assignments in the bodies of the setters. *)
Definition assign_abs_score_diff (val : double) (sc : t) : t :=
  {| m_abs_score_diff := val;
     m_rel_score_diff := m_rel_score_diff sc;
     m_stop_score := m_stop_score sc;
     m_stop_condition := m_stop_condition sc;
     m_max_iterations := m_max_iterations sc |}.

Definition assign_rel_score_diff (val : double) (sc : t) : t :=
  {| m_abs_score_diff := m_abs_score_diff sc;
     m_rel_score_diff := val;
     m_stop_score := m_stop_score sc;
     m_stop_condition := m_stop_condition sc;
     m_max_iterations := m_max_iterations sc |}.

Definition assign_stop_score (val : double) (sc : t) : t :=
  {| m_abs_score_diff := m_abs_score_diff sc;
     m_rel_score_diff := m_rel_score_diff sc;
     m_stop_score := val;
     m_stop_condition := m_stop_condition sc;
     m_max_iterations := m_max_iterations sc |}.

Definition assign_stop_condition (cond : U -> bool * U) (sc : t) : t :=
  {| m_abs_score_diff := m_abs_score_diff sc;
     m_rel_score_diff := m_rel_score_diff sc;
     m_stop_score := m_stop_score sc;
     m_stop_condition := cond;
     m_max_iterations := m_max_iterations sc |}.

Definition assign_max_iterations (val : Z) (sc : t) : t :=
  {| m_abs_score_diff := m_abs_score_diff sc;
     m_rel_score_diff := m_rel_score_diff sc;
     m_stop_score := m_stop_score sc;
     m_stop_condition := m_stop_condition sc;
     m_max_iterations := val |}.

(** The getters ([const] member functions). *)
Definition abs_score_diff (sc : t) : double := m_abs_score_diff sc.
Definition rel_score_diff (sc : t) : double := m_rel_score_diff sc.
Definition stop_score (sc : t) : double := m_stop_score sc.

(** [double max_iterations() const { return m_max_iterations; }]: the
    unsigned count converted to double. *)
Definition max_iterations (sc : t) : double := of_Z (m_max_iterations sc).

(** [bool stop_condition() { return m_stop_condition(); }] *)
Definition stop_condition (sc : t) (u : U) : bool * U := m_stop_condition sc u.

(** *** Setters, as member functions of an object

    A setter is called on an object and returns [*this].  Objects live in
    a store; a reference is a key of the store.  A call on a reference
    that designates no object has no behaviour. *)
Definition ref : Type := nat.
Definition store : Type := gmap ref t.

Definition method (this : ref) (body : t -> option t) (st : store)
  : option (ref * store) :=
  match st !! this with
  | Some sc =>
      match body sc with
      | Some sc' => Some (this, <[this := sc']> st)
      | None => None
      end
  | None => None
  end.

(** [StopCriteria & abs_score_diff(double val)] *)
Definition set_abs_score_diff (this : ref) (val : double) :=
  method this (fun sc => Some (assign_abs_score_diff val sc)).

(** [StopCriteria & rel_score_diff(double val)] *)
Definition set_rel_score_diff (this : ref) (val : double) :=
  method this (fun sc => Some (assign_rel_score_diff val sc)).

(** [StopCriteria & stop_score(double val)] *)
Definition set_stop_score (this : ref) (val : double) :=
  method this (fun sc => Some (assign_stop_score val sc)).

(** [StopCriteria & max_iterations(double val)]: the field is
    [unsigned], so [m_max_iterations = val] converts the double. *)
Definition set_max_iterations (this : ref) (val : double) :=
  method this (fun sc =>
    match to_unsigned val with
    | Some n => Some (assign_max_iterations n sc)
    | None => None
    end).

(** [template<class Fn> StopCriteria & stop_condition(Fn &&cond)] *)
Definition set_stop_condition (this : ref) (cond : U -> bool * U) :=
  method this (fun sc => Some (assign_stop_condition cond sc)).

(** Reading a member through a reference. *)
Definition get {A : Type} (getter : t -> A) (this : ref) (st : store) : option A :=
  getter <$> st !! this.

End WithUser.
Arguments t U : clear implicits.
Arguments store U : clear implicits.
End StopCriteria.

(** ** namespace detail *)

Module detail.

(** [nlopt_algorithm] is an enumeration of the solver's header; the
    header names three of its members. *)
Inductive nlopt_algorithm : Type :=
| NLOPT_GN_ESCH
| NLOPT_LN_SBPLX
| NLOPT_LN_NELDERMEAD
| NLOPT_ALGORITHM (id : nat).

(** [template<nlopt_algorithm alg> struct NLoptAlg] and
    [template<nlopt_algorithm gl_alg, nlopt_algorithm lc_alg> struct
    NLoptAlgComb]: the method tags. *)
Inductive Method : Type :=
| NLoptAlg (alg : nlopt_algorithm)
| NLoptAlgComb (gl_alg lc_alg : nlopt_algorithm).

(** The default template argument of [NLoptAlgComb]. *)
Definition NLoptAlgComb_default (gl_alg : nlopt_algorithm) : Method :=
  NLoptAlgComb gl_alg NLOPT_LN_NELDERMEAD.

(** *** Collections to tuples

    A [std::tuple] of doubles is the list of its components, first
    component first.  [c] is what can be read through the pointer or
    reference [c]; [c !! i] is [c[i]], which has no value outside the
    array.

    [to_tuple_<I, N, T, C>::call(c)] is
    [tuple_cat(tuple<T>{c[I]}, to_tuple_<I-1, N, T, C>::call(c))], and
    [to_tuple_<0, N, T, C>::call(c)] is the empty tuple. *)
Fixpoint to_tuple_ (I : nat) (c : list double) : option (list double) :=
  match I with
  | O => Some []
  | S I' =>
      match c !! S I' with
      | Some x =>
          match to_tuple_ I' c with
          | Some rest => Some (x :: rest)
          | None => None
          end
      | None => None
      end
  end.

(** [carray_tuple<N>(v)] is [to_tuple_<N, N, T, const T*>::call(v)]. *)
Definition carray_tuple (N : nat) (v : list double) : option (list double) :=
  to_tuple_ N v.

(** [enum class OptDir { MIN, MAX }].  The underlying type is [int] and
    every value of it is a value of the enumeration; [MIN] and [MAX] are 0
    and 1.  A value of the type is kept as the underlying integer. *)
Inductive OptDir : Type := MIN | MAX.

Definition OptDir_to_int (dir : OptDir) : Z :=
  match dir with
  | MIN => 0
  | MAX => 1
  end.

Definition OptDir_of_int (z : Z) : option OptDir :=
  match z with
  | 0 => Some MIN
  | 1 => Some MAX
  | _ => None
  end.

(** Handles of the solver ([nlopt_opt]) and addresses of objects with
    automatic storage. *)
Definition nlopt_opt : Type := nat.
Definition addr : Type := nat.

(** The state of one solver context: what the configuration calls have
    set.  [None] is a setting never made, for which the solver's own
    default applies. *)
Record nlopt_ctx : Type := {
  algorithm : nlopt_algorithm;
  dimension : nat;
  lower_bounds : option (list double);
  upper_bounds : option (list double);
  ftol_abs : option double;
  ftol_rel : option double;
  stopval : option double;
  maxeval : option Z;
  (** direction, the instance [optfunc<Func, N>] (by its [N]) and the
      [void *] handed back to it on every evaluation *)
  objective : option (OptDir * nat * addr);
  local_optimizer : option nlopt_opt;
  force_stop : bool;
}.

Definition nlopt_ctx_new (alg : nlopt_algorithm) (n : nat) : nlopt_ctx :=
  {| algorithm := alg; dimension := n;
     lower_bounds := None; upper_bounds := None;
     ftol_abs := None; ftol_rel := None; stopval := None; maxeval := None;
     objective := None; local_optimizer := None; force_stop := false |}.

(** The calls into the solver, and the calls of the user's callables. *)
Inductive call : Type :=
| Create (alg : nlopt_algorithm) (n : nat) (ret : nlopt_opt)
| Destroy (opt : nlopt_opt)
| SetLowerBounds (opt : nlopt_opt) (lb : list double)
| SetUpperBounds (opt : nlopt_opt) (ub : list double)
| SetFtolAbs (opt : nlopt_opt) (tol : double)
| SetFtolRel (opt : nlopt_opt) (tol : double)
| SetStopval (opt : nlopt_opt) (stopval : double)
| SetMaxeval (opt : nlopt_opt) (maxeval : Z)
| SetMinObjective (opt : nlopt_opt) (N : nat) (f_data : addr)
| SetMaxObjective (opt : nlopt_opt) (N : nat) (f_data : addr)
| SetLocalOptimizer (opt local_opt : nlopt_opt)
| ForceStop (opt : nlopt_opt)
| Optimize (opt : nlopt_opt) (x : list double)
| StopCondition (ret : bool)
| Objective (args : list double) (ret : double).

Definition set_lower_bounds (lb : list double) (c : nlopt_ctx) : nlopt_ctx :=
  {| algorithm := algorithm c; dimension := dimension c;
     lower_bounds := Some lb; upper_bounds := upper_bounds c;
     ftol_abs := ftol_abs c; ftol_rel := ftol_rel c; stopval := stopval c;
     maxeval := maxeval c; objective := objective c;
     local_optimizer := local_optimizer c; force_stop := force_stop c |}.

Definition set_upper_bounds (ub : list double) (c : nlopt_ctx) : nlopt_ctx :=
  {| algorithm := algorithm c; dimension := dimension c;
     lower_bounds := lower_bounds c; upper_bounds := Some ub;
     ftol_abs := ftol_abs c; ftol_rel := ftol_rel c; stopval := stopval c;
     maxeval := maxeval c; objective := objective c;
     local_optimizer := local_optimizer c; force_stop := force_stop c |}.

Definition set_ftol_abs (tol : double) (c : nlopt_ctx) : nlopt_ctx :=
  {| algorithm := algorithm c; dimension := dimension c;
     lower_bounds := lower_bounds c; upper_bounds := upper_bounds c;
     ftol_abs := Some tol; ftol_rel := ftol_rel c; stopval := stopval c;
     maxeval := maxeval c; objective := objective c;
     local_optimizer := local_optimizer c; force_stop := force_stop c |}.

Definition set_ftol_rel (tol : double) (c : nlopt_ctx) : nlopt_ctx :=
  {| algorithm := algorithm c; dimension := dimension c;
     lower_bounds := lower_bounds c; upper_bounds := upper_bounds c;
     ftol_abs := ftol_abs c; ftol_rel := Some tol; stopval := stopval c;
     maxeval := maxeval c; objective := objective c;
     local_optimizer := local_optimizer c; force_stop := force_stop c |}.

Definition set_stopval (v : double) (c : nlopt_ctx) : nlopt_ctx :=
  {| algorithm := algorithm c; dimension := dimension c;
     lower_bounds := lower_bounds c; upper_bounds := upper_bounds c;
     ftol_abs := ftol_abs c; ftol_rel := ftol_rel c; stopval := Some v;
     maxeval := maxeval c; objective := objective c;
     local_optimizer := local_optimizer c; force_stop := force_stop c |}.

Definition set_maxeval (v : Z) (c : nlopt_ctx) : nlopt_ctx :=
  {| algorithm := algorithm c; dimension := dimension c;
     lower_bounds := lower_bounds c; upper_bounds := upper_bounds c;
     ftol_abs := ftol_abs c; ftol_rel := ftol_rel c; stopval := stopval c;
     maxeval := Some v; objective := objective c;
     local_optimizer := local_optimizer c; force_stop := force_stop c |}.

Definition set_objective (dir : OptDir) (N : nat) (f_data : addr)
    (c : nlopt_ctx) : nlopt_ctx :=
  {| algorithm := algorithm c; dimension := dimension c;
     lower_bounds := lower_bounds c; upper_bounds := upper_bounds c;
     ftol_abs := ftol_abs c; ftol_rel := ftol_rel c; stopval := stopval c;
     maxeval := maxeval c; objective := Some (dir, N, f_data);
     local_optimizer := local_optimizer c; force_stop := force_stop c |}.

Definition set_local_optimizer (local_opt : nlopt_opt) (c : nlopt_ctx)
  : nlopt_ctx :=
  {| algorithm := algorithm c; dimension := dimension c;
     lower_bounds := lower_bounds c; upper_bounds := upper_bounds c;
     ftol_abs := ftol_abs c; ftol_rel := ftol_rel c; stopval := stopval c;
     maxeval := maxeval c; objective := objective c;
     local_optimizer := Some local_opt; force_stop := force_stop c |}.

Definition set_force_stop (c : nlopt_ctx) : nlopt_ctx :=
  {| algorithm := algorithm c; dimension := dimension c;
     lower_bounds := lower_bounds c; upper_bounds := upper_bounds c;
     ftol_abs := ftol_abs c; ftol_rel := ftol_rel c; stopval := stopval c;
     maxeval := maxeval c; objective := objective c;
     local_optimizer := local_optimizer c; force_stop := true |}.

(** A run of a solver, as the solver's side of [nlopt_optimize]: it asks
    for the objective at a point of its choice, as often as it likes, and
    goes on from the value it gets and from the force-stop flag of its
    context; it ends by reporting a termination code and the final content
    of the point buffer, and the final score when it stores one through
    the pointer [opt_f]. *)
Inductive run : Type :=
| Return (code : Z) (x : list double) (opt_f : option double)
| Evaluate (x : list double) (k : double -> bool -> run).

Section WithUser.

Context {U : Type}.

(** The user's objective: a callable of [N] doubles, applied to a tuple. *)
Definition Func : Type := list double -> U -> double * U.

(** [class NLoptOpt<NLoptAlg<alg>>]: the data members. *)
Record NLoptOpt : Type := {
  m_stopcr : StopCriteria.t U;
  m_dir : option Z;                (* OptDir; None until it is assigned *)
}.

(** [TData<Fn>] is
    [std::tuple<std::remove_reference_t<Fn>*, NLoptOpt*, nlopt_opt>].
    The callable and the binding outlive every run and are not assigned
    to during one, so the tuple carries what the two pointers designate. *)
Definition TData : Type := Func * NLoptOpt * nlopt_opt.

(** The state a call runs in. *)
Record World : Type := {
  ctxs : gmap nlopt_opt nlopt_ctx; (* the solver contexts not yet destroyed *)
  stack : gmap addr TData;         (* the automatic objects still alive *)
  user : U;                        (* the state of the user's callables *)
  log : list call;                 (* the calls made so far, oldest first *)
  tuples : list (addr * TData);    (* the context tuples built so far, each
                                      with its address, oldest first *)
}.

(** Computations: state passing; [None] is undefined behaviour or an
    abort. *)
Definition M (A : Type) : Type := World -> option (A * World).

#[global] Instance M_ret : MRet M := fun A (a : A) w => Some (a, w).

#[global] Instance M_bind : MBind M := fun A B (k : A -> M B) (m : M A) w =>
  match m w with
  | Some (a, w') => k a w'
  | None => None
  end.

Definition fail {A : Type} : M A := fun _ => None.

(** [if (c) statement;] *)
Definition when (c : bool) (m : M unit) : M unit :=
  if c then m else mret tt.

Definition record (ev : call) : M unit := fun w =>
  Some (tt, {| ctxs := ctxs w; stack := stack w; user := user w;
               log := log w ++ [ev]; tuples := tuples w |}).

(** A call that changes one live context; on a handle that designates no
    live context it has no behaviour. *)
Definition on_ctx (opt : nlopt_opt) (f : nlopt_ctx -> nlopt_ctx) : M unit :=
  fun w =>
    match ctxs w !! opt with
    | Some c =>
        Some (tt, {| ctxs := <[opt := f c]> (ctxs w); stack := stack w;
                     user := user w; log := log w; tuples := tuples w |})
    | None => None
    end.

(** *** The solver's interface (nlopt.h)

    The functions of NLopt that the header calls, by their effect on the
    table of contexts and on the call log.  [nlopt_create] returns a handle
    that designates no live context and makes it designate a context with
    no setting made; the configuration calls record their argument in the
    context; [nlopt_destroy] ends the life of the context.  The result
    codes of the configuration calls are left out: the header ignores
    them. *)

Definition nlopt_create (alg : nlopt_algorithm) (n : nat) : M nlopt_opt :=
  fun w =>
    let opt := fresh (dom (ctxs w)) in
    Some (opt, {| ctxs := <[opt := nlopt_ctx_new alg n]> (ctxs w);
                  stack := stack w; user := user w;
                  log := log w ++ [Create alg n opt]; tuples := tuples w |}).

Definition nlopt_destroy (opt : nlopt_opt) : M unit := fun w =>
  match ctxs w !! opt with
  | Some _ =>
      Some (tt, {| ctxs := delete opt (ctxs w); stack := stack w;
                   user := user w; log := log w ++ [Destroy opt];
                   tuples := tuples w |})
  | None => None
  end.

Definition nlopt_set_lower_bounds (opt : nlopt_opt) (lb : list double) : M unit :=
  on_ctx opt (set_lower_bounds lb);; record (SetLowerBounds opt lb).

Definition nlopt_set_upper_bounds (opt : nlopt_opt) (ub : list double) : M unit :=
  on_ctx opt (set_upper_bounds ub);; record (SetUpperBounds opt ub).

Definition nlopt_set_ftol_abs (opt : nlopt_opt) (tol : double) : M unit :=
  on_ctx opt (set_ftol_abs tol);; record (SetFtolAbs opt tol).

Definition nlopt_set_ftol_rel (opt : nlopt_opt) (tol : double) : M unit :=
  on_ctx opt (set_ftol_rel tol);; record (SetFtolRel opt tol).

Definition nlopt_set_stopval (opt : nlopt_opt) (v : double) : M unit :=
  on_ctx opt (set_stopval v);; record (SetStopval opt v).

(** [nlopt_result nlopt_set_maxeval(nlopt_opt opt, int maxeval)]: the
    parameter is an [int]. *)
Definition nlopt_set_maxeval (opt : nlopt_opt) (maxeval : Z) : M unit :=
  on_ctx opt (set_maxeval maxeval);; record (SetMaxeval opt maxeval).

Definition nlopt_set_min_objective (opt : nlopt_opt) (N : nat) (f_data : addr)
  : M unit :=
  on_ctx opt (set_objective MIN N f_data);; record (SetMinObjective opt N f_data).

Definition nlopt_set_max_objective (opt : nlopt_opt) (N : nat) (f_data : addr)
  : M unit :=
  on_ctx opt (set_objective MAX N f_data);; record (SetMaxObjective opt N f_data).

Definition nlopt_set_local_optimizer (opt local_opt : nlopt_opt) : M unit :=
  fun w =>
    match ctxs w !! local_opt with
    | Some _ =>
        (on_ctx opt (set_local_optimizer local_opt);;
         record (SetLocalOptimizer opt local_opt)) w
    | None => None
    end.

Definition nlopt_force_stop (opt : nlopt_opt) : M unit :=
  on_ctx opt set_force_stop;; record (ForceStop opt).

(** *** Automatic storage *)

(** The definition of a local [TData] object: it gets storage that no
    live object has. *)
Definition local (v : TData) : M addr := fun w =>
  let a := fresh (dom (stack w)) in
  Some (a, {| ctxs := ctxs w; stack := <[a := v]> (stack w);
              user := user w; log := log w;
              tuples := tuples w ++ [(a, v)] |}).

(** The end of the block the object was defined in. *)
Definition end_of_scope (a : addr) : M unit := fun w =>
  Some (tt, {| ctxs := ctxs w; stack := delete a (stack w);
               user := user w; log := log w; tuples := tuples w |}).

(** [*static_cast<TData<Fn>*>(data)]: reading through a pointer to an
    object whose lifetime has ended has no behaviour. *)
Definition deref (data : addr) : M TData := fun w =>
  match stack w !! data with
  | Some v => Some (v, w)
  | None => None
  end.

(** *** [struct NLopt], the RAII helper for [nlopt_opt] *)

(** [explicit NLopt(A&&...a) { ptr = nlopt_create(a...); }] *)
Definition NLopt_ctor (alg : nlopt_algorithm) (n : nat) : M nlopt_opt :=
  nlopt_create alg n.

(** [~NLopt() { nlopt_destroy(ptr); }] *)
Definition NLopt_dtor (ptr : nlopt_opt) : M unit := nlopt_destroy ptr.

(** *** [NLoptOpt<NLoptAlg<alg>>] *)

(** [m_stopcr.stop_condition()] *)
Definition call_stop_condition (sc : StopCriteria.t U) : M bool := fun w =>
  let '(b, u') := StopCriteria.stop_condition sc (user w) in
  Some (b, {| ctxs := ctxs w; stack := stack w; user := u';
              log := log w ++ [StopCondition b]; tuples := tuples w |}).

(** [std::apply] of [*fnptr] to [funval] *)
Definition apply (fn : Func) (funval : list double) : M double := fun w =>
  let '(ret, u') := fn funval (user w) in
  Some (ret, {| ctxs := ctxs w; stack := stack w; user := u';
                log := log w ++ [Objective funval ret]; tuples := tuples w |}).

(** [static double optfunc(unsigned n, const double *params,
                           double *gradient, void *data)] for the
    template arguments [<Fn, N>]; [params] is the array of [n] doubles
    the solver passes. *)
Definition optfunc (N : nat) (n : nat) (params : list double) (data : addr)
  : M double :=
  when (negb (N <=? n)%nat) fail;;            (* assert(n >= N) *)
  tdata ← deref data;
  let '(fnptr, self, opt) := tdata in
  stop ← call_stop_condition (m_stopcr self);
  when stop (nlopt_force_stop opt);;
  match carray_tuple N params with
  | Some funval => apply fnptr funval
  | None => fail
  end.

(** *** The run of a solver: [nlopt_optimize(opt, x, opt_f)]

    Which run the solver makes is its own matter: [solver] gives it, from
    the table of contexts, the handle and the start point.  An evaluation
    in the run is a call, made by the solver, of the function registered
    as the objective of the context [opt], on the dimension of the
    context, the point, and the [void *] registered with the function;
    with no objective registered there is no function to call. *)
Variable solver : gmap nlopt_opt nlopt_ctx -> nlopt_opt -> list double -> run.

Fixpoint perform (opt : nlopt_opt) (r : run)
  : M (Z * list double * option double) :=
  match r with
  | Return code x opt_f => mret (code, x, opt_f)
  | Evaluate x k => fun w =>
      match ctxs w !! opt with
      | Some c =>
          match objective c with
          | Some (_, N, f_data) =>
              match optfunc N (dimension c) x f_data w with
              | Some (value, w') =>
                  let stopped := default false (force_stop <$> ctxs w' !! opt) in
                  perform opt (k value stopped) w'
              | None => None
              end
          | None => None
          end
      | None => None
      end
  end.

Definition nlopt_optimize (opt : nlopt_opt) (x : list double)
  : M (Z * list double * option double) :=
  fun w =>
    match ctxs w !! opt with
    | Some _ => (record (Optimize opt x);; perform opt (solver (ctxs w) opt x)) w
    | None => None
    end.

(** [void set_up(NLopt &nl, Func&& func, const Bounds<N>& bounds)].  The
    argument of [nlopt_set_maxeval] is the [double] that the getter
    returns, converted to the [int] of the parameter.  The [switch] reads
    [m_dir]: when nothing was ever stored in it the read has no
    behaviour. *)
Definition set_up (this : NLoptOpt) (N : nat) (nl : nlopt_opt) (func : Func)
    (bounds : Bounds) : M unit :=
  let lb := Bound.min <$> bounds in
  let ub := Bound.max <$> bounds in
  nlopt_set_lower_bounds nl lb;;
  nlopt_set_upper_bounds nl ub;;
  let abs_diff := StopCriteria.abs_score_diff (m_stopcr this) in
  let rel_diff := StopCriteria.rel_score_diff (m_stopcr this) in
  let stopval := StopCriteria.stop_score (m_stopcr this) in
  when (negb (isnan abs_diff)) (nlopt_set_ftol_abs nl abs_diff);;
  when (negb (isnan rel_diff)) (nlopt_set_ftol_rel nl rel_diff);;
  when (negb (isnan stopval)) (nlopt_set_stopval nl stopval);;
  when (ltb zero (StopCriteria.max_iterations (m_stopcr this)))
       (match to_int (StopCriteria.max_iterations (m_stopcr this)) with
        | Some maxeval => nlopt_set_maxeval nl maxeval
        | None => fail
        end);;
  data ← local (func, this, nl);
  match m_dir this with
  | Some dir =>
      match OptDir_of_int dir with
      | Some MIN => nlopt_set_min_objective nl N data
      | Some MAX => nlopt_set_max_objective nl N data
      | None => mret tt
      end
  | None => fail
  end;;
  end_of_scope data.

(** [Result<N> optimize(NLopt &nl, const Input<N> &initvals)]: [r] is
    not initialized; [r.optimum] is assigned the initial point and is the
    buffer of the run, [r.resultcode] is assigned the code the run
    returns, and [r.score] is what the run stored through [&r.score]. *)
Definition optimize_nl (nl : nlopt_opt) (initvals : Input) : M Result :=
  '(code, x, opt_f) ← nlopt_optimize nl initvals;
  mret {| resultcode := code; optimum := x; score := opt_f |}.

(** [Result<N> optimize(Func&& func, const Input<N> &initvals,
                        const Bounds<N>& bounds)] *)
Definition optimize (alg : nlopt_algorithm) (this : NLoptOpt) (N : nat)
    (func : Func) (initvals : Input) (bounds : Bounds) : M Result :=
  nl ← NLopt_ctor alg N;
  set_up this N nl func bounds;;
  r ← optimize_nl nl initvals;
  NLopt_dtor nl;;
  mret r.

(** [explicit NLoptOpt(StopCriteria stopcr = {}) : m_stopcr(stopcr) {}]:
    [m_dir] has no initializer and the constructor stores nothing in
    it. *)
Definition NLoptOpt_ctor (stopcr : option (StopCriteria.t U)) : NLoptOpt :=
  {| m_stopcr := default StopCriteria.ctor stopcr; m_dir := None |}.

Definition set_criteria (cr : StopCriteria.t U) (this : NLoptOpt) : NLoptOpt :=
  {| m_stopcr := cr; m_dir := m_dir this |}.

Definition get_criteria (this : NLoptOpt) : StopCriteria.t U := m_stopcr this.

(** [void set_dir(OptDir dir) noexcept { m_dir = dir; }] *)
Definition set_dir (dir : Z) (this : NLoptOpt) : NLoptOpt :=
  {| m_stopcr := m_stopcr this; m_dir := Some dir |}.

(** *** [NLoptOpt<NLoptAlgComb<glob, loc>>], derived from
    [NLoptOpt<NLoptAlg<glob>>] *)
Definition optimize_comb (glob loc : nlopt_algorithm) (this : NLoptOpt)
    (N : nat) (func : Func) (initvals : Input) (bounds : Bounds) : M Result :=
  nl_glob ← NLopt_ctor glob N;
  nl_loc ← NLopt_ctor loc N;
  set_up this N nl_glob func bounds;;
  set_up this N nl_loc func bounds;;
  nlopt_set_local_optimizer nl_glob nl_loc;;
  r ← optimize_nl nl_glob initvals;
  NLopt_dtor nl_loc;;
  NLopt_dtor nl_glob;;
  mret r.

End WithUser.
Arguments NLoptOpt U : clear implicits.
Arguments World U : clear implicits.
Arguments Func U : clear implicits.
Arguments TData U : clear implicits.
Arguments M U A : clear implicits.
End detail.

(** ** The public front door: [Optimizer<detail::NLoptOpt<M>>] *)

Module Optimizer.
Section WithUser.

Context {U : Type}.
Variable solver :
  gmap detail.nlopt_opt detail.nlopt_ctx -> detail.nlopt_opt -> list double ->
  detail.run.

Record t : Type := { m_opt : detail.NLoptOpt U }.

(** [explicit Optimizer(StopCriteria stopcr = {}) : m_opt(stopcr) {}] *)
Definition ctor (stopcr : option (StopCriteria.t U)) : t :=
  {| m_opt := detail.NLoptOpt_ctor stopcr |}.

(** [Optimizer& to_max() { m_opt.set_dir(detail::OptDir::MAX); return *this; }] *)
Definition to_max (this : t) : t :=
  {| m_opt := detail.set_dir (detail.OptDir_to_int detail.MAX) (m_opt this) |}.

(** [Optimizer& to_min() { m_opt.set_dir(detail::OptDir::MIN); return *this; }] *)
Definition to_min (this : t) : t :=
  {| m_opt := detail.set_dir (detail.OptDir_to_int detail.MIN) (m_opt this) |}.

(** [m_opt.optimize(func, initvals, bounds)]: the method tag [M] selects the
    specialization of [detail::NLoptOpt]. *)
Definition optimize (method : detail.Method) (this : t) (N : nat)
    (func : detail.Func U) (initvals : Input) (bounds : Bounds)
  : detail.M U Result :=
  match method with
  | detail.NLoptAlg alg =>
      detail.optimize solver alg (m_opt this) N func initvals bounds
  | detail.NLoptAlgComb glob loc =>
      detail.optimize_comb solver glob loc (m_opt this) N func initvals bounds
  end.

Definition set_criteria (cr : StopCriteria.t U) (this : t) : t :=
  {| m_opt := detail.set_criteria cr (m_opt this) |}.

Definition get_criteria (this : t) : StopCriteria.t U :=
  detail.get_criteria (m_opt this).

End WithUser.
Arguments t U : clear implicits.
End Optimizer.

(** The predefined algorithms. *)
Definition AlgNLoptGenetic : detail.Method :=
  detail.NLoptAlgComb_default detail.NLOPT_GN_ESCH.
Definition AlgNLoptSubplex : detail.Method :=
  detail.NLoptAlg detail.NLOPT_LN_SBPLX.
Definition AlgNLoptSimplex : detail.Method :=
  detail.NLoptAlg detail.NLOPT_LN_NELDERMEAD.

(** * Sample inputs *)

Module Sample.
Import detail.

(** The state of the user's callables: the number of evaluations made. *)
Definition U : Type := nat.

(** An objective of two arguments, [f(x, y) = x], that counts its calls. *)
Definition first_of_two : Func U := fun args evals =>
  (match args with
   | [x; _] => x
   | _ => nan
   end, S evals).

(** A cancellation predicate that holds once an evaluation has been made. *)
Definition cancel_after_first : U -> bool * U := fun evals =>
  (0 <? evals, evals)%nat.

Definition criteria : StopCriteria.t U :=
  StopCriteria.assign_stop_condition cancel_after_first
    (StopCriteria.assign_max_iterations 100
       (StopCriteria.assign_abs_score_diff (half 1) StopCriteria.ctor)).

(** A store with one default-constructed [StopCriteria], at 0. *)
Definition configs : StopCriteria.store U := {[0%nat := StopCriteria.ctor]}.

(** A binding directed to minimize. *)
Definition binding : NLoptOpt U :=
  set_dir (OptDir_to_int MIN) (NLoptOpt_ctor (Some criteria)).

(** The same as an [Optimizer]. *)
Definition minimizer : Optimizer.t U :=
  Optimizer.to_min (Optimizer.ctor (Some criteria)).

(** A minimizing binding whose iteration count is 2^31, one more than the
    largest [int]. *)
Definition binding_2_31 : NLoptOpt U :=
  set_dir (OptDir_to_int MIN)
    (NLoptOpt_ctor
       (Some (StopCriteria.assign_max_iterations (2 ^ 31) StopCriteria.ctor))).

(** The same as an [Optimizer]. *)
Definition minimizer_2_31 : Optimizer.t U :=
  Optimizer.to_min
    (Optimizer.ctor
       (Some (StopCriteria.assign_max_iterations (2 ^ 31) StopCriteria.ctor))).

Definition unit_square : Bounds :=
  [Bound.ctor (Some (d 0)) (Some (d 1)); Bound.ctor (Some (d 0)) (Some (d 1))].

(** Before any call. *)
Definition idle : World U :=
  {| ctxs := ∅; stack := ∅; user := 0%nat; log := []; tuples := [] |}.

(** One live context, the handle 0. *)
Definition one_context : World U :=
  {| ctxs := {[0%nat := nlopt_ctx_new NLOPT_LN_SBPLX 2]}; stack := ∅;
     user := 0%nat; log := []; tuples := [] |}.

(** During a run on the handle 0, one evaluation made, with a live context
    object for the adapter at the address 0. *)
Definition running : World U :=
  {| ctxs := {[0%nat := nlopt_ctx_new NLOPT_LN_SBPLX 2]};
     stack := {[0%nat := (first_of_two, binding, 0%nat)]};
     user := 1%nat; log := [];
     tuples := [(0%nat, (first_of_two, binding, 0%nat))] |}.

(** A solver that evaluates nothing and reports a failure, without
    storing a score. *)
Definition failing_solver
  : gmap nlopt_opt nlopt_ctx -> nlopt_opt -> list double -> run :=
  fun _ _ x => Return (-1) x None.

(** A solver that evaluates the objective at the start point and reports
    that point and its value. *)
Definition one_evaluation
  : gmap nlopt_opt nlopt_ctx -> nlopt_opt -> list double -> run :=
  fun _ _ x => Evaluate x (fun value _ => Return 1 x (Some value)).

End Sample.

(** * Effect summaries

    What a call of [set_up] leaves in a solver context and in the call log,
    written as functions of the binding, the bounds and the address [data]
    of the local [TData] object. *)

Module Summary.
Section WithUser.

Context {U : Type}.
Import detail.

(** The evaluation cap that [set_up] passes on, if any. *)
Definition cap (sc : StopCriteria.t U) : option Z :=
  if ltb zero (StopCriteria.max_iterations sc)
  then to_int (StopCriteria.max_iterations sc)
  else None.

(** The objective function that the [switch] of [set_up] selects, if
    any. *)
Definition direction (this : NLoptOpt U) : option OptDir :=
  match m_dir this with
  | Some dir => OptDir_of_int dir
  | None => None
  end.

(** Whether the statements of [set_up] have a behaviour on a live handle:
    the count, when positive, converts to [int], and the direction has
    been assigned. *)
Definition set_up_defined (this : NLoptOpt U) : bool :=
  (if ltb zero (StopCriteria.max_iterations (m_stopcr this))
   then if to_int (StopCriteria.max_iterations (m_stopcr this)) is Some _
        then true else false
   else true)
  && (if m_dir this is Some _ then true else false).

Definition configured (this : NLoptOpt U) (N : nat) (bounds : Bounds)
    (data : addr) (c : nlopt_ctx) : nlopt_ctx :=
  let sc := m_stopcr this in
  let c := set_lower_bounds (Bound.min <$> bounds) c in
  let c := set_upper_bounds (Bound.max <$> bounds) c in
  let c := if isnan (StopCriteria.abs_score_diff sc) then c
           else set_ftol_abs (StopCriteria.abs_score_diff sc) c in
  let c := if isnan (StopCriteria.rel_score_diff sc) then c
           else set_ftol_rel (StopCriteria.rel_score_diff sc) c in
  let c := if isnan (StopCriteria.stop_score sc) then c
           else set_stopval (StopCriteria.stop_score sc) c in
  let c := match cap sc with
           | Some maxeval => set_maxeval maxeval c
           | None => c
           end in
  match direction this with
  | Some dir => set_objective dir N data c
  | None => c
  end.

Definition set_up_calls (this : NLoptOpt U) (N : nat) (nl : nlopt_opt)
    (bounds : Bounds) (data : addr) : list call :=
  let sc := m_stopcr this in
  [SetLowerBounds nl (Bound.min <$> bounds);
   SetUpperBounds nl (Bound.max <$> bounds)]
  ++ (if isnan (StopCriteria.abs_score_diff sc) then []
      else [SetFtolAbs nl (StopCriteria.abs_score_diff sc)])
  ++ (if isnan (StopCriteria.rel_score_diff sc) then []
      else [SetFtolRel nl (StopCriteria.rel_score_diff sc)])
  ++ (if isnan (StopCriteria.stop_score sc) then []
      else [SetStopval nl (StopCriteria.stop_score sc)])
  ++ match cap sc with
     | Some maxeval => [SetMaxeval nl maxeval]
     | None => []
     end
  ++ match direction this with
     | Some MIN => [SetMinObjective nl N data]
     | Some MAX => [SetMaxObjective nl N data]
     | None => []
     end.

(** The state in which [optimize] starts the solver: the fresh context
    [nl] after [set_up], the context tuple of [set_up] built and gone. *)
Definition run_world (alg : nlopt_algorithm) (this : NLoptOpt U) (N : nat)
    (func : Func U) (bounds : Bounds) (w : World U) : World U :=
  let nl := fresh (dom (ctxs w)) in
  let data := fresh (dom (stack w)) in
  {| ctxs := <[nl := configured this N bounds data (nlopt_ctx_new alg N)]> (ctxs w);
     stack := stack w;
     user := user w;
     log := log w ++ [Create alg N nl] ++ set_up_calls this N nl bounds data;
     tuples := tuples w ++ [(data, (func, this, nl))] |}.

(** The two handles of the composed binding. *)
Definition glob_handle (w : World U) : nlopt_opt := fresh (dom (ctxs w)).

Definition loc_handle (glob : nlopt_algorithm) (N : nat) (w : World U) : nlopt_opt :=
  fresh (dom (<[glob_handle w := nlopt_ctx_new glob N]> (ctxs w))).

(** The state in which the composed [optimize] starts the solver. *)
Definition run_world_comb (glob loc : nlopt_algorithm) (this : NLoptOpt U)
    (N : nat) (func : Func U) (bounds : Bounds) (w : World U) : World U :=
  let nl_glob := glob_handle w in
  let nl_loc := loc_handle glob N w in
  let data := fresh (dom (stack w)) in
  {| ctxs :=
       <[nl_glob := set_local_optimizer nl_loc
                      (configured this N bounds data (nlopt_ctx_new glob N))]>
         (<[nl_loc := configured this N bounds data (nlopt_ctx_new loc N)]>
            (ctxs w));
     stack := stack w;
     user := user w;
     log := log w ++ [Create glob N nl_glob; Create loc N nl_loc]
              ++ set_up_calls this N nl_glob bounds data
              ++ set_up_calls this N nl_loc bounds data
              ++ [SetLocalOptimizer nl_glob nl_loc];
     tuples := tuples w ++ [(data, (func, this, nl_glob));
                            (data, (func, this, nl_loc))] |}.



Definition runs (calls : list call) : list (nlopt_opt * list double) :=
  omap (fun ev => match ev with Optimize opt x => Some (opt, x) | _ => None end)
       calls.

(** The settings of a context that [set_up] is in charge of: the bounds,
    the stop criteria, and the direction and instance of the adapter. *)
Definition settings (c : nlopt_ctx)
  : option (list double) * option (list double)
    * (option double * option double * option double * option Z)
    * option (OptDir * nat) :=
  (lower_bounds c, upper_bounds c,
   (ftol_abs c, ftol_rel c, stopval c, maxeval c),
   (fun o => o.1) <$> objective c).

(** The handle on which, and the state in which, [optimize] starts the
    solver, by method tag. *)
Definition started (method : Method) (this : NLoptOpt U) (N : nat)
    (func : Func U) (bounds : Bounds) (w : World U) : nlopt_opt * World U :=
  match method with
  | NLoptAlg alg => (fresh (dom (ctxs w)), run_world alg this N func bounds w)
  | NLoptAlgComb glob loc =>
      (glob_handle w, run_world_comb glob loc this N func bounds w)
  end.

(** The destructor calls at the end of [optimize], by method tag. *)
Definition released (method : Method) (N : nat) (w : World U) : list call :=
  match method with
  | NLoptAlg _ => [Destroy (fresh (dom (ctxs w)))]
  | NLoptAlgComb glob _ => [Destroy (loc_handle glob N w); Destroy (glob_handle w)]
  end.

End WithUser.
End Summary.

(** * The bounds loop of [set_up], and chains of setters *)

Module Loop.

(** [for (size_t i = 0; i < N; ++i) { lb[i] = bounds[i].min();
    ub[i] = bounds[i].max(); }], with [todo] iterations left from the index
    [i].  [lb] and [ub] are the [std::array<double, N>] of [set_up], whose
    content before the loop is whatever their storage held; an index
    outside an array has no behaviour. *)
Fixpoint bounds_loop (bounds : Bounds) (todo i : nat) (lb ub : list double)
  : option (list double * list double) :=
  match todo with
  | O => Some (lb, ub)
  | S todo' =>
      match bounds !! i, lb !! i, ub !! i with
      | Some b, Some _, Some _ =>
          bounds_loop bounds todo' (S i)
            (<[i := Bound.min b]> lb) (<[i := Bound.max b]> ub)
      | _, _, _ => None
      end
  end.

Definition set_up_bounds (N : nat) (bounds : Bounds) (lb ub : list double)
  : option (list double * list double) :=
  bounds_loop bounds N 0 lb ub.

End Loop.

Module Chain.
Section WithUser.

Context {U : Type}.


End WithUser.
End Chain.

(** * Proofs *)

Section Stepping.

Context {U : Type}.
Import detail.

Implicit Types (w : World U) (c : nlopt_ctx) (m : gmap nlopt_opt nlopt_ctx)
  (s : gmap addr (TData U)) (l : list call) (t : list (addr * TData U)).

Lemma bind_eq {A B : Type} (mx : M U A) (k : A -> M U B) w :
  (mx ≫= k) w = match mx w with Some (a, w') => k a w' | None => None end.
Proof. reflexivity. Qed.

Lemma step_on_ctx nl f ev c m s (u : U) l t :
  (on_ctx nl f;; record ev)
    {| ctxs := <[nl := c]> m; stack := s; user := u; log := l; tuples := t |}
  = Some (tt, {| ctxs := <[nl := f c]> m; stack := s; user := u;
                 log := l ++ [ev]; tuples := t |}).
Proof.
  rewrite bind_eq. unfold on_ctx, record. simpl.
  rewrite lookup_insert_eq, insert_insert_eq. reflexivity.
Qed.

Lemma step_when_on_ctx (b : bool) nl f ev c m s (u : U) l t :
  when b (on_ctx nl f;; record ev)
    {| ctxs := <[nl := c]> m; stack := s; user := u; log := l; tuples := t |}
  = Some (tt, {| ctxs := <[nl := if b then f c else c]> m; stack := s;
                 user := u; log := l ++ (if b then [ev] else []);
                 tuples := t |}).
Proof.
  destruct b; simpl.
  - apply step_on_ctx.
  - rewrite app_nil_r. reflexivity.
Qed.

Lemma fresh_stack s : s !! fresh (dom s) = None.
Proof. apply not_elem_of_dom, is_fresh. Qed.

Lemma fresh_ctxs m : m !! fresh (dom m) = None.
Proof. apply not_elem_of_dom, is_fresh. Qed.

(** The whole effect of [set_up] on a live context. *)
Lemma set_up_live (this : NLoptOpt U) N nl func bounds c m s (u : U) l t :
  set_up this N nl func bounds
    {| ctxs := <[nl := c]> m; stack := s; user := u; log := l; tuples := t |}
  = if Summary.set_up_defined this then
      Some (tt,
        {| ctxs := <[nl := Summary.configured this N bounds (fresh (dom s)) c]> m;
           stack := s; user := u;
           log := l ++ Summary.set_up_calls this N nl bounds (fresh (dom s));
           tuples := t ++ [(fresh (dom s), (func, this, nl))] |})
    else None.
Proof.
  unfold set_up, nlopt_set_lower_bounds, nlopt_set_upper_bounds,
    nlopt_set_ftol_abs, nlopt_set_ftol_rel, nlopt_set_stopval,
    nlopt_set_maxeval.
  rewrite bind_eq, step_on_ctx.
  rewrite bind_eq, step_on_ctx.
  rewrite bind_eq, step_when_on_ctx.
  rewrite bind_eq, step_when_on_ctx.
  rewrite bind_eq, step_when_on_ctx.
  set (data := fresh (dom s)).
  assert (Hdel : delete data (<[data := (func, this, nl)]> s) = s).
  { rewrite delete_insert_eq. apply delete_id, fresh_stack. }
  unfold Summary.set_up_defined, Summary.configured, Summary.set_up_calls,
    Summary.cap, Summary.direction.
  destruct (isnan (StopCriteria.abs_score_diff (m_stopcr this)));
  destruct (isnan (StopCriteria.rel_score_diff (m_stopcr this)));
  destruct (isnan (StopCriteria.stop_score (m_stopcr this)));
  (destruct (ltb zero (StopCriteria.max_iterations (m_stopcr this)));
   [destruct (to_int (StopCriteria.max_iterations (m_stopcr this))) as [maxeval|]|]);
  (destruct (m_dir this) as [dir|]; [destruct (OptDir_of_int dir) as [[|]|]|]);
    cbn [negb when andb]; rewrite bind_eq;
    try reflexivity;
    rewrite ?step_on_ctx; unfold mret, M_ret;
    rewrite bind_eq; unfold local at 1; cbn [ctxs stack user log tuples];
    fold data; try reflexivity;
    rewrite bind_eq;
    unfold nlopt_set_min_objective, nlopt_set_max_objective;
    rewrite ?step_on_ctx; unfold end_of_scope;
    cbn [ctxs stack user log tuples]; do 2 f_equal;
    (f_equal; [exact Hdel | rewrite <- ?app_assoc; reflexivity]).
Qed.

(** A world with a live context [nl] has its contexts of the form
    [<[nl := c]> _]. *)
Lemma world_live (w : World U) nl c :
  ctxs w !! nl = Some c ->
  w = {| ctxs := <[nl := c]> (ctxs w); stack := stack w; user := user w;
         log := log w; tuples := tuples w |}.
Proof. intros H. destruct w. cbn in *. rewrite insert_id by done. reflexivity. Qed.

Lemma set_up_live_world (this : NLoptOpt U) N nl func bounds w c :
  ctxs w !! nl = Some c ->
  set_up this N nl func bounds w
  = if Summary.set_up_defined this then
      Some (tt,
        {| ctxs := <[nl := Summary.configured this N bounds (fresh (dom (stack w))) c]>
                     (ctxs w);
           stack := stack w; user := user w;
           log := log w
                    ++ Summary.set_up_calls this N nl bounds (fresh (dom (stack w)));
           tuples := tuples w ++ [(fresh (dom (stack w)), (func, this, nl))] |})
    else None.
Proof.
  intros H. rewrite (world_live w nl c H) at 1. rewrite set_up_live.
  reflexivity.
Qed.

Lemma set_up_dead (this : NLoptOpt U) N nl func bounds (w : World U) :
  ctxs w !! nl = None -> set_up this N nl func bounds w = None.
Proof.
  intros Hdead. unfold set_up, nlopt_set_lower_bounds.
  rewrite bind_eq, bind_eq. unfold on_ctx at 1.
  rewrite Hdead. reflexivity.
Qed.

(** Once the block of the local [TData] object is left, a call of the
    adapter on its address has no behaviour. *)
Lemma optfunc_dead N n params data (w : World U) :
  stack w !! data = None -> optfunc N n params data w = None.
Proof.
  intros Hdead. unfold optfunc. rewrite bind_eq.
  destruct (negb (N <=? n)%nat); [reflexivity|]. cbn [when].
  unfold mret, M_ret. rewrite bind_eq. unfold deref. rewrite Hdead. reflexivity.
Qed.

Lemma configured_objective (this : NLoptOpt U) N bounds data c :
  objective (Summary.configured this N bounds data c)
  = match Summary.direction this with
    | Some dir => Some (dir, N, data)
    | None => objective c
    end.
Proof.
  unfold Summary.configured.
  destruct (isnan _), (isnan _), (isnan _), (Summary.cap _),
    (Summary.direction this); reflexivity.
Qed.

Variable solver : gmap nlopt_opt nlopt_ctx -> nlopt_opt -> list double -> run.

(** A run on a context whose registered pointer, if any, designates no
    live object: the first evaluation has no behaviour. *)
Lemma nlopt_optimize_dead nl x w c :
  ctxs w !! nl = Some c ->
  (forall dir N data, objective c = Some (dir, N, data) -> stack w !! data = None) ->
  nlopt_optimize solver nl x w
  = match solver (ctxs w) nl x with
    | Return code x' opt_f =>
        Some ((code, x', opt_f),
              {| ctxs := ctxs w; stack := stack w; user := user w;
                 log := log w ++ [Optimize nl x]; tuples := tuples w |})
    | Evaluate _ _ => None
    end.
Proof.
  intros Hc Hdead. unfold nlopt_optimize. rewrite Hc, bind_eq.
  unfold record at 1.
  destruct (solver (ctxs w) nl x) as [code x' opt_f|p k]; [reflexivity|].
  cbn [perform ctxs]. rewrite Hc.
  destruct (objective c) as [[[dir N] data]|] eqn:Hobj; [|reflexivity].
  rewrite optfunc_dead; [reflexivity|]. cbn [stack].
  apply (Hdead dir N data). reflexivity.
Qed.

(** The whole effect of the single-algorithm [optimize]. *)
Lemma optimize_effect alg (this : NLoptOpt U) N func initvals bounds w :
  let nl := fresh (dom (ctxs w)) in
  let w_run := Summary.run_world alg this N func bounds w in
  optimize solver alg this N func initvals bounds w
  = if Summary.set_up_defined this then
      match solver (ctxs w_run) nl initvals with
      | Return code x opt_f =>
          Some ({| resultcode := code; optimum := x; score := opt_f |},
                {| ctxs := ctxs w; stack := stack w; user := user w;
                   log := log w_run ++ [Optimize nl initvals; Destroy nl];
                   tuples := tuples w_run |})
      | Evaluate _ _ => None
      end
    else None.
Proof.
  intros nl w_run. unfold optimize, NLopt_ctor, NLopt_dtor.
  rewrite bind_eq. unfold nlopt_create at 1. fold nl.
  rewrite bind_eq, set_up_live.
  destruct (Summary.set_up_defined this); [|reflexivity].
  rewrite <- app_assoc, bind_eq.
  match goal with
  | |- context [optimize_nl _ _ _ ?W] => change W with w_run
  end.
  unfold optimize_nl. rewrite bind_eq.
  rewrite (nlopt_optimize_dead nl initvals w_run
             (Summary.configured this N bounds (fresh (dom (stack w)))
                (nlopt_ctx_new alg N))).
  - destruct (solver (ctxs w_run) nl initvals) as [code x opt_f|p k];
      [|reflexivity].
    unfold mret at 1, M_ret at 1. rewrite bind_eq.
    unfold nlopt_destroy. cbn [ctxs stack user log tuples].
    assert (Hl : ctxs w_run !! nl = Some (Summary.configured this N bounds
              (fresh (dom (stack w))) (nlopt_ctx_new alg N)))
      by apply lookup_insert_eq.
    rewrite Hl. unfold mret, M_ret. do 2 f_equal. f_equal.
    + unfold w_run, Summary.run_world. cbn [ctxs]. fold nl.
      rewrite delete_insert_eq. apply delete_id, fresh_ctxs.
    + rewrite <- !app_assoc. reflexivity.
  - apply lookup_insert_eq.
  - intros dir N' data. rewrite configured_objective.
    destruct (Summary.direction this); [|discriminate].
    intros [= _ _ <-]. apply fresh_stack.
Qed.

Lemma loc_handle_fresh glob N w :
  Summary.loc_handle glob N w <> Summary.glob_handle w
  /\ ctxs w !! Summary.loc_handle glob N w = None.
Proof.
  pose proof (fresh_ctxs (<[Summary.glob_handle w := nlopt_ctx_new glob N]> (ctxs w)))
    as Hf.
  fold (Summary.loc_handle glob N w) in Hf.
  apply lookup_insert_None in Hf. destruct Hf as [Hf Hne]. split; congruence.
Qed.

Lemma glob_handle_fresh w : ctxs w !! Summary.glob_handle w = None.
Proof. apply fresh_ctxs. Qed.

Lemma step_set_local_optimizer g lc cg cl m s (u : U) l t :
  g <> lc ->
  nlopt_set_local_optimizer g lc
    {| ctxs := <[g := cg]> (<[lc := cl]> m); stack := s; user := u; log := l;
       tuples := t |}
  = Some (tt, {| ctxs := <[g := set_local_optimizer lc cg]> (<[lc := cl]> m);
                 stack := s; user := u;
                 log := l ++ [SetLocalOptimizer g lc]; tuples := t |}).
Proof.
  intros Hne. unfold nlopt_set_local_optimizer. cbn [ctxs].
  rewrite lookup_insert_ne, lookup_insert_eq by done.
  apply step_on_ctx.
Qed.

(** The whole effect of the composed [optimize]. *)
Lemma optimize_comb_effect glob loc (this : NLoptOpt U) N func initvals bounds w :
  let nl_glob := Summary.glob_handle w in
  let nl_loc := Summary.loc_handle glob N w in
  let w_run := Summary.run_world_comb glob loc this N func bounds w in
  optimize_comb solver glob loc this N func initvals bounds w
  = if Summary.set_up_defined this then
      match solver (ctxs w_run) nl_glob initvals with
      | Return code x opt_f =>
          Some ({| resultcode := code; optimum := x; score := opt_f |},
                {| ctxs := ctxs w; stack := stack w; user := user w;
                   log := log w_run
                            ++ [Optimize nl_glob initvals; Destroy nl_loc;
                                Destroy nl_glob];
                   tuples := tuples w_run |})
      | Evaluate _ _ => None
      end
    else None.
Proof.
  intros g lc w_run.
  destruct (loc_handle_fresh glob N w) as [Hne Hlc]. fold lc g in Hne, Hlc.
  pose proof (glob_handle_fresh w) as Hg. fold g in Hg.
  unfold optimize_comb, NLopt_ctor, NLopt_dtor.
  rewrite bind_eq. unfold nlopt_create at 1. fold (Summary.glob_handle w). fold g.
  rewrite bind_eq. unfold nlopt_create at 1. cbn [ctxs stack user log tuples].
  fold (Summary.loc_handle glob N w). fold lc.
  rewrite (insert_insert_ne (ctxs w) lc g) by done.
  rewrite bind_eq, set_up_live.
  destruct (Summary.set_up_defined this) eqn:Hdef; [|reflexivity].
  rewrite (insert_insert_ne (ctxs w) g lc) by done.
  rewrite bind_eq, set_up_live, Hdef.
  rewrite (insert_insert_ne (ctxs w) lc g) by done.
  rewrite bind_eq, step_set_local_optimizer by done.
  set (data := fresh (dom (stack w))).
  set (cg := set_local_optimizer lc
               (Summary.configured this N bounds data (nlopt_ctx_new glob N))).
  set (cl := Summary.configured this N bounds data (nlopt_ctx_new loc N)).
  change (fresh (dom (<[g:=nlopt_ctx_new glob N]> (ctxs w)))) with lc.
  rewrite bind_eq.
  match goal with
  | |- context [optimize_nl _ _ _ ?W] => assert (HW : W = w_run)
  end.
  { unfold w_run, Summary.run_world_comb. fold g lc data cg cl.
    f_equal; cbn [app]; rewrite <- !app_assoc; reflexivity. }
  rewrite HW.
  assert (Hlg : ctxs w_run !! g = Some cg) by apply lookup_insert_eq.
  assert (Hll : ctxs w_run !! lc = Some cl).
  { unfold w_run, Summary.run_world_comb. cbn [ctxs]. fold g lc data cg cl.
    rewrite lookup_insert_ne, lookup_insert_eq by done. reflexivity. }
  unfold optimize_nl. rewrite bind_eq.
  rewrite (nlopt_optimize_dead g initvals w_run cg Hlg).
  - destruct (solver (ctxs w_run) g initvals) as [code x opt_f|p k];
      [|reflexivity].
    unfold mret at 1, M_ret at 1. rewrite bind_eq.
    unfold nlopt_destroy at 1. cbn [ctxs stack user log tuples].
    rewrite Hll. rewrite bind_eq. unfold nlopt_destroy.
    cbn [ctxs stack user log tuples].
    assert (Hd1 : delete lc (ctxs w_run) = <[g := cg]> (ctxs w)).
    { unfold w_run, Summary.run_world_comb. cbn [ctxs]. fold g lc data cg cl.
      rewrite delete_insert_ne, delete_insert_eq by done.
      rewrite delete_id by done. reflexivity. }
    rewrite Hd1, lookup_insert_eq, delete_insert_eq, delete_id by done.
    unfold mret, M_ret. do 2 f_equal. f_equal.
    rewrite <- !app_assoc. reflexivity.
  - intros dir N' data'. unfold cg. cbn [objective set_local_optimizer].
    rewrite configured_objective.
    destruct (Summary.direction this); [|discriminate].
    intros [= _ _ <-]. apply fresh_stack.
Qed.

End Stepping.

(** ** Integers and doubles *)

Section Conversions.

Lemma digits2_pos_iter_xO (p k : positive) :
  digits2_pos (Pos.iter xO p k) = (digits2_pos p + k)%positive.
Proof.
  induction k as [|k IH] using Pos.peano_ind.
  - simpl. lia.
  - rewrite Pos.iter_succ. simpl. rewrite IH. lia.
Qed.

Lemma Zpos_iter_xO (p k : positive) :
  Zpos (Pos.iter xO p k) = Zpos p * 2 ^ Zpos k.
Proof.
  induction k as [|k IH] using Pos.peano_ind.
  - simpl. lia.
  - rewrite Pos.iter_succ, Pos2Z.inj_xO, IH, Pos2Z.inj_succ, Z.pow_succ_r by lia. lia.
Qed.

Lemma digits2_pos_bound (p : positive) (n : Z) :
  0 <= n -> Zpos p < 2 ^ n -> Zpos (digits2_pos p) <= n.
Proof.
  revert n. induction p as [p IH|p IH|]; intros n Hn Hp; simpl.
  - assert (n <> 0) by (intros ->; simpl in Hp; lia).
    replace n with (Z.succ (n - 1)) in Hp by lia.
    rewrite Z.pow_succ_r in Hp by lia.
    specialize (IH (n - 1)). lia.
  - assert (n <> 0) by (intros ->; simpl in Hp; lia).
    replace n with (Z.succ (n - 1)) in Hp by lia.
    rewrite Z.pow_succ_r in Hp by lia.
    specialize (IH (n - 1)). lia.
  - assert (n <> 0) by (intros ->; simpl in Hp; lia). lia.
Qed.

(** An integer of at most 53 bits converts exactly: the mantissa is the
    integer shifted left until it has 53 bits. *)
Lemma of_Z_pos_exact (p : positive) :
  Zpos (digits2_pos p) <= 53 ->
  exists m e, of_Z (Zpos p) = S754_finite false m e /\
              e <= 0 /\ Zpos m = Zpos p * 2 ^ (- e).
Proof.
  intros Hd.
  unfold of_Z, binary_normalize, binary_round.
  set (dg := digits2_pos p) in *.
  assert (Hf : fexp prec emax (Zpos dg + 0) = Zpos dg - 53).
  { unfold fexp, emin, prec, emax. lia. }
  rewrite Hf. unfold shl_align.
  destruct (Zpos dg - 53 - 0) as [|k|k] eqn:Hk; try lia.
  - exists p, 0. split; [|split; [lia | simpl; lia]].
    unfold binary_round_aux, shr_fexp. simpl Zdigits2. fold dg.
    assert (Hf2 : fexp prec emax (Zpos dg + 0) - 0 = 0) by (rewrite Hf; lia).
    rewrite Hf2. simpl. fold dg. rewrite Hf2. simpl. reflexivity.
  - exists (Pos.iter xO p k), (Zpos dg - 53).
    split; [|split; [lia | rewrite Zpos_iter_xO; f_equal; f_equal; lia]].
    unfold binary_round_aux, shr_fexp. simpl Zdigits2.
    rewrite digits2_pos_iter_xO. fold dg.
    assert (Hf2 : fexp prec emax (Zpos (dg + k) + (Zpos dg - 53)) - (Zpos dg - 53) = 0).
    { unfold fexp, emin, prec, emax. lia. }
    rewrite Hf2. simpl. rewrite digits2_pos_iter_xO. fold dg. rewrite Hf2. simpl.
    replace (Zpos dg - 53 <=? emax - prec) with true; [reflexivity|].
    symmetry. apply Z.leb_le. unfold emax, prec. lia.
Qed.

Lemma trunc_of_Z (u : Z) : 0 <= u < 2 ^ 53 -> trunc (of_Z u) = Some u.
Proof.
  intros [H0 Hu]. destruct u as [|p|p]; [reflexivity| |lia].
  destruct (of_Z_pos_exact p) as (m & e & -> & He & Hm).
  { apply digits2_pos_bound; lia. }
  simpl. f_equal. destruct e as [|k|k]; try lia.
  - rewrite Z.shiftl_0_r. simpl in Hm. lia.
  - rewrite Z.shiftr_div_pow2 by lia. rewrite Hm.
    change (- Z.neg k) with (Z.pos k). apply Z.div_mul. lia.
Qed.

(** An [unsigned] converted to double and back is itself. *)
Lemma to_unsigned_of_Z (u : Z) :
  0 <= u <= UINT_MAX -> to_unsigned (of_Z u) = Some u.
Proof.
  intros Hu. unfold to_unsigned. rewrite trunc_of_Z.
  - replace (0 <=? u) with true by (symmetry; apply Z.leb_le; lia).
    replace (u <=? UINT_MAX) with true by (symmetry; apply Z.leb_le; lia).
    reflexivity.
  - unfold UINT_MAX in Hu. lia.
Qed.

(** [double(u) > 0] exactly when [u > 0]. *)
Lemma of_Z_positive (u : Z) : 0 <= u < 2 ^ 53 -> ltb zero (of_Z u) = (0 <? u).
Proof.
  intros [H0 Hu]. destruct u as [|p|p]; [reflexivity| |lia].
  destruct (of_Z_pos_exact p) as (m & e & -> & _).
  { apply digits2_pos_bound; lia. }
  reflexivity.
Qed.

End Conversions.

(** A count up to [INT_MAX] converted to double and then to [int] is
    itself; a larger one has no conversion to [int]. *)
Lemma to_int_of_Z (u : Z) : 0 <= u <= INT_MAX -> to_int (of_Z u) = Some u.
Proof.
  intros Hu. unfold INT_MAX in Hu. unfold to_int. rewrite trunc_of_Z by lia.
  replace (INT_MIN <=? u) with true
    by (symmetry; apply Z.leb_le; unfold INT_MIN; lia).
  replace (u <=? INT_MAX) with true
    by (symmetry; apply Z.leb_le; unfold INT_MAX; lia).
  reflexivity.
Qed.

Lemma to_int_of_Z_large (u : Z) : INT_MAX < u < 2 ^ 53 -> to_int (of_Z u) = None.
Proof.
  intros Hu. unfold INT_MAX in Hu. unfold to_int. rewrite trunc_of_Z by lia.
  replace (u <=? INT_MAX) with false
    by (symmetry; apply Z.leb_gt; unfold INT_MAX; lia).
  rewrite andb_false_r. reflexivity.
Qed.

Section Caps.

Context {U : Type}.
Import detail.

(** The cap that [set_up] passes on, for a count that fits an [int]. *)
Lemma cap_in_range (sc : StopCriteria.t U) :
  0 <= StopCriteria.m_max_iterations sc <= INT_MAX ->
  Summary.cap sc
  = if StopCriteria.m_max_iterations sc =? 0 then None
    else Some (StopCriteria.m_max_iterations sc).
Proof.
  intros Hm. unfold Summary.cap, StopCriteria.max_iterations.
  rewrite of_Z_positive by (unfold INT_MAX in Hm; lia).
  rewrite to_int_of_Z by exact Hm.
  destruct (Z.eqb_spec (StopCriteria.m_max_iterations sc) 0) as [->|Hne];
    [reflexivity|].
  replace (0 <? StopCriteria.m_max_iterations sc) with true; [reflexivity|].
  symmetry. apply Z.ltb_lt. lia.
Qed.

Lemma set_up_defined_in_range (this : NLoptOpt U) (dir : Z) :
  m_dir this = Some dir ->
  0 <= StopCriteria.m_max_iterations (m_stopcr this) <= INT_MAX ->
  Summary.set_up_defined this = true.
Proof.
  intros Hdir Hm. unfold Summary.set_up_defined, StopCriteria.max_iterations.
  rewrite Hdir, to_int_of_Z by exact Hm.
  destruct (ltb zero _); reflexivity.
Qed.

Lemma set_up_defined_large (this : NLoptOpt U) :
  INT_MAX < StopCriteria.m_max_iterations (m_stopcr this) <= UINT_MAX ->
  Summary.set_up_defined this = false.
Proof.
  intros Hm. unfold Summary.set_up_defined, StopCriteria.max_iterations.
  unfold INT_MAX, UINT_MAX in Hm.
  rewrite of_Z_positive by lia.
  rewrite to_int_of_Z_large by (unfold INT_MAX; lia).
  replace (0 <? StopCriteria.m_max_iterations (m_stopcr this)) with true;
    [reflexivity|].
  symmetry. apply Z.ltb_lt. lia.
Qed.

Lemma set_up_defined_unset (this : NLoptOpt U) :
  m_dir this = None -> Summary.set_up_defined this = false.
Proof.
  intros Hdir. unfold Summary.set_up_defined. rewrite Hdir.
  apply andb_false_r.
Qed.

End Caps.

Example of_Z_7 : of_Z 7 = S754_finite false 7881299347898368 (-50).
Proof. reflexivity. Qed.

Example to_unsigned_2_5 : to_unsigned (half 5) = Some 2.
Proof. reflexivity. Qed.

Example to_unsigned_negative : to_unsigned (of_Z (-1)) = None.
Proof. reflexivity. Qed.

Example to_unsigned_too_large : to_unsigned (of_Z (2 ^ 32)) = None.
Proof. reflexivity. Qed.

Example to_unsigned_nan : to_unsigned nan = None.
Proof. reflexivity. Qed.

Example limits_valid :
  valid_binary prec emax numeric_limits_min = true
  /\ valid_binary prec emax numeric_limits_max = true
  /\ valid_binary prec emax numeric_limits_lowest = true.
Proof. repeat split. Qed.

Example to_int_100 : to_int (of_Z 100) = Some 100.
Proof. reflexivity. Qed.

Example to_int_INT_MAX : to_int (of_Z INT_MAX) = Some INT_MAX.
Proof. reflexivity. Qed.

Example to_int_too_large : to_int (of_Z (2 ^ 31)) = None.
Proof. reflexivity. Qed.

(** ** Tuples from arrays *)

Section Tuples.

Import detail.

(** [to_tuple_<I>] reads the indices [I], [I-1], ..., [1], in this order. *)
Lemma to_tuple_reads (I : nat) (c : list double) :
  (I < length c)%nat -> to_tuple_ I c = Some (rev (take I (drop 1 c))).
Proof.
  induction I as [|I IH]; intros Hlen; [reflexivity|].
  destruct (lookup_lt_is_Some_2 c (S I) Hlen) as [x Hx].
  cbn [to_tuple_]. rewrite Hx, IH by lia.
  assert (Hd : drop 1 c !! I = Some x).
  { rewrite lookup_drop. exact Hx. }
  rewrite (take_S_r _ _ _ Hd), rev_app_distr. reflexivity.
Qed.

(** It reads index [I] first, which lies outside an array of [I] doubles. *)
Lemma to_tuple_out_of_bounds (I : nat) (c : list double) :
  (0 < I)%nat -> (length c <= I)%nat -> to_tuple_ I c = None.
Proof.
  intros HI Hlen. destruct I as [|I]; [lia|].
  cbn [to_tuple_]. rewrite (lookup_ge_None_2 c (S I)) by lia. reflexivity.
Qed.

End Tuples.

(** ** The adapter, case by case *)

Section Adapter.

Import detail.
Context {U : Type}.

Lemma to_tuple_length (I : nat) (c t : list double) :
  to_tuple_ I c = Some t -> length t = I.
Proof.
  revert t. induction I as [|I IH]; intros t; cbn [to_tuple_].
  - intros [= <-]. reflexivity.
  - destruct (c !! S I); [|discriminate].
    destruct (to_tuple_ I c) as [rest|]; [|discriminate].
    intros [= <-]. cbn. f_equal. apply IH. reflexivity.
Qed.

Lemma carray_tuple_is_Some (N : nat) (v : list double) :
  is_Some (carray_tuple N v) <-> N = 0%nat \/ (N < length v)%nat.
Proof.
  unfold carray_tuple. split.
  - intros [t Ht]. destruct N as [|N]; [left; reflexivity|right].
    destruct (Nat.lt_ge_cases (S N) (length v)) as [Hlt|Hge]; [exact Hlt|].
    rewrite to_tuple_out_of_bounds in Ht by lia. discriminate.
  - intros [->|Hlt]; [eexists; reflexivity|].
    rewrite to_tuple_reads by exact Hlt. eexists. reflexivity.
Qed.

Lemma deref_Some data (w w0 : World U) (t : TData U) :
  deref data w = Some (t, w0) -> stack w !! data = Some t /\ w0 = w.
Proof.
  unfold deref. destruct (stack w !! data); [|discriminate].
  intros [= <- <-]. split; reflexivity.
Qed.

Lemma deref_None data (w : World U) :
  deref data w = None -> stack w !! data = None.
Proof. unfold deref. destruct (stack w !! data); [discriminate|reflexivity]. Qed.

Lemma optfunc_cases N n params data (w : World U) :
  optfunc N n params data w
  = if (N <=? n)%nat then
      match deref data w with
      | Some (tdata, _) =>
          let su := StopCriteria.stop_condition (m_stopcr tdata.1.2) (user w) in
          match carray_tuple N params with
          | Some args =>
              let ru := tdata.1.1 args su.2 in
              if su.1 then
                match ctxs w !! tdata.2 with
                | Some c =>
                    Some (ru.1,
                          {| ctxs := <[tdata.2 := set_force_stop c]> (ctxs w);
                             stack := stack w; user := ru.2;
                             log := log w ++ [StopCondition true;
                                              ForceStop tdata.2;
                                              Objective args ru.1];
                             tuples := tuples w |})
                | None => None
                end
              else
                Some (ru.1,
                      {| ctxs := ctxs w; stack := stack w; user := ru.2;
                         log := log w ++ [StopCondition false;
                                          Objective args ru.1];
                         tuples := tuples w |})
          | None => None
          end
      | None => None
      end
    else None.
Proof.
  unfold optfunc. rewrite bind_eq.
  destruct (N <=? n)%nat; cbn [negb when]; [|reflexivity].
  unfold mret at 1, M_ret at 1. rewrite bind_eq.
  destruct (deref data w) as [[[[fnptr self] opt] w0]|] eqn:Hd; [|reflexivity].
  apply deref_Some in Hd. destruct Hd as [_ ->].
  rewrite bind_eq. unfold call_stop_condition. cbn [fst snd].
  destruct (StopCriteria.stop_condition (m_stopcr self) (user w)) as [stop u1].
  cbn [fst snd]. destruct stop; cbn [when].
  - rewrite bind_eq. unfold nlopt_force_stop. rewrite bind_eq.
    unfold on_ctx at 1. cbn [ctxs].
    destruct (ctxs w !! opt) as [c|];
      [|destruct (carray_tuple N params); reflexivity].
    unfold record. cbn [ctxs stack user log tuples].
    destruct (carray_tuple N params) as [args|]; [|reflexivity].
    unfold apply. cbn [ctxs stack user log tuples].
    destruct (fnptr args u1) as [ret u2]. cbn [fst snd].
    do 2 f_equal. f_equal. rewrite <- !app_assoc. reflexivity.
  - rewrite bind_eq. unfold mret, M_ret.
    destruct (carray_tuple N params) as [args|]; [|reflexivity].
    unfold apply. cbn [ctxs stack user log tuples].
    destruct (fnptr args u1) as [ret u2]. cbn [fst snd].
    do 2 f_equal. f_equal. rewrite <- !app_assoc. reflexivity.
Qed.

(** On an array of exactly [N] doubles, [N > 0], the unpacking reads one
    past the end: the call has no behaviour, whatever [data] designates. *)
Lemma optfunc_exact_array N params data (w : World U) :
  (0 < N)%nat -> length params = N -> optfunc N N params data w = None.
Proof.
  intros HN Hlen. rewrite optfunc_cases.
  destruct (N <=? N)%nat; [|reflexivity].
  destruct (deref data w) as [[tdata w0]|]; [|reflexivity].
  unfold carray_tuple. rewrite to_tuple_out_of_bounds by lia. reflexivity.
Qed.

End Adapter.

(** * The statements of the specification *)

Section Claims.

Import detail.

(** C1 (the code departs from it).  The adapter is to unpack the first [N]
    values of the array, indices 0 to N-1 in order.  [carray_tuple<N>]
    starts [to_tuple_] at [I = N], so the tuple is [c[N]], ..., [c[1]]: on
    an array of three doubles and [N = 2] the objective [f(x, y) = x] is
    applied to the third and the second value and returns the third, and on
    an array of exactly two doubles the first read is outside the array. *)
Theorem C1_carray_tuple_reads_N_down_to_1 :
  carray_tuple 2 [d 1; d 2; d 3] = Some [d 3; d 2]
  /\ carray_tuple 2 [d 1; d 2; d 3] <> Some (take 2 [d 1; d 2; d 3])
  /\ fst <$> optfunc 2 3 [d 1; d 2; d 3] 0%nat Sample.running = Some (d 3)
  /\ fst <$> optfunc 2 3 [d 1; d 2; d 3] 0%nat Sample.running
     <> Some (fst (Sample.first_of_two (take 2 [d 1; d 2; d 3]) 1%nat))
  /\ carray_tuple 2 [d 1; d 2] = None
  /\ optfunc 2 2 [d 1; d 2] 0%nat Sample.running = None.
Proof.
  repeat split; try reflexivity; vm_compute; discriminate.
Qed.

(** C3 (the code departs from it).  A default-constructed [Bound] has
    [max()] equal to the largest finite double, but its [min()] is
    [std::numeric_limits<double>::min()], the smallest positive normalized
    double: it is greater than zero and is not the lowest double. *)
Theorem C3_default_Bound_min_is_positive :
  Bound.min (Bound.ctor None None) = numeric_limits_min
  /\ ltb zero (Bound.min (Bound.ctor None None)) = true
  /\ Bound.min (Bound.ctor None None) <> numeric_limits_lowest
  /\ ltb numeric_limits_lowest (Bound.min (Bound.ctor None None)) = true
  /\ Bound.max (Bound.ctor None None) = numeric_limits_max.
Proof.
  repeat split; try reflexivity; vm_compute; discriminate.
Qed.

(** C2 (the code departs from it).  The context of the adapter is the
    local variable [data] of [set_up]; [set_up] registers its address with
    the solver and returns, which ends the lifetime of [data], and only
    then does [optimize] start the solver.  On a minimizing binding in
    dimension 2: the tuple was built at the address 0 and that address is
    what the context holds for the adapter, but the solver is started in a
    state where it designates no live object, so that no call of the
    adapter on it has a behaviour.  The call of [optimize] therefore has
    an outcome only for a run that ends without a single evaluation of
    the objective. *)
Theorem C2_adapter_context_dead_during_run
    (solver : gmap nlopt_opt nlopt_ctx -> nlopt_opt -> list double -> run) :
  let w_run :=
    Summary.run_world NLOPT_LN_SBPLX Sample.binding 2 Sample.first_of_two
      Sample.unit_square Sample.idle in
  fst <$> optimize solver NLOPT_LN_SBPLX Sample.binding 2 Sample.first_of_two
            [d 0; d 0] Sample.unit_square Sample.idle
  = match solver (ctxs w_run) 0%nat [d 0; d 0] with
    | Return code x opt_f =>
        Some {| resultcode := code; optimum := x; score := opt_f |}
    | Evaluate _ _ => None
    end
  /\ tuples w_run = [(0%nat, (Sample.first_of_two, Sample.binding, 0%nat))]
  /\ objective <$> ctxs w_run !! 0%nat = Some (Some (MIN, 2%nat, 0%nat))
  /\ stack w_run !! 0%nat = None
  /\ forall n params, optfunc 2 n params 0%nat w_run = None.
Proof.
  intros w_run. split; [|split; [|split; [|split]]].
  - rewrite optimize_effect.
    change (Summary.set_up_defined Sample.binding) with true. cbv iota.
    fold w_run.
    match goal with
    | |- context [solver _ ?h _] => change h with 0%nat
    end.
    destruct (solver (ctxs w_run) 0%nat [d 0; d 0]); reflexivity.
  - reflexivity.
  - reflexivity.
  - reflexivity.
  - intros n params. apply optfunc_dead. reflexivity.
Qed.

(** C5 (the code departs from it).  The solver calls the adapter with the
    dimension [N] of the problem and an array of exactly [N] doubles.  On
    such a call, for every [N > 0], the unpacking reads the element after
    the last one of the array: whatever the stop predicate returned, the
    score of the evaluation in flight is not computed from the objective,
    and the call has no behaviour. *)
Theorem C5_adapter_undefined_on_N_doubles
    (U : Type) (x : double) (xs : list double) (data : addr) (w : World U) :
  optfunc (S (length xs)) (S (length xs)) (x :: xs) data w = None.
Proof. apply optfunc_exact_array; [lia|reflexivity]. Qed.

End Claims.

(** ** Reading the call log *)

Section Logs.

Import detail.
Context {U : Type}.

Lemma set_up_calls_no_run (this : NLoptOpt U) N nl bounds data :
  Summary.runs (Summary.set_up_calls this N nl bounds data) = [].
Proof.
  unfold Summary.set_up_calls.
  destruct (isnan _), (isnan _), (isnan _), (Summary.cap _),
    (Summary.direction _) as [[|]|]; reflexivity.
Qed.


Lemma runs_app (l1 l2 : list call) :
  Summary.runs (l1 ++ l2) = Summary.runs l1 ++ Summary.runs l2.
Proof. apply omap_app. Qed.



(** The settings [set_up] makes in a fresh context do not depend on the
    algorithm of the context. *)
Lemma configured_settings_new (this : NLoptOpt U) N bounds data a1 a2 n1 n2 :
  Summary.settings (Summary.configured this N bounds data (nlopt_ctx_new a1 n1))
  = Summary.settings (Summary.configured this N bounds data (nlopt_ctx_new a2 n2)).
Proof.
  unfold Summary.configured, Summary.settings.
  destruct (isnan _), (isnan _), (isnan _), (Summary.cap _),
    (Summary.direction _) as [[|]|]; reflexivity.
Qed.

Lemma configured_bounds (this : NLoptOpt U) N bounds data c :
  lower_bounds (Summary.configured this N bounds data c) = Some (Bound.min <$> bounds)
  /\ upper_bounds (Summary.configured this N bounds data c) = Some (Bound.max <$> bounds)
  /\ algorithm (Summary.configured this N bounds data c) = algorithm c
  /\ local_optimizer (Summary.configured this N bounds data c) = local_optimizer c.
Proof.
  unfold Summary.configured.
  destruct (isnan _), (isnan _), (isnan _), (Summary.cap _),
    (Summary.direction _) as [[|]|]; repeat split; reflexivity.
Qed.

Lemma configured_frame (this : NLoptOpt U) N bounds data c :
  algorithm (Summary.configured this N bounds data c) = algorithm c
  /\ dimension (Summary.configured this N bounds data c) = dimension c
  /\ local_optimizer (Summary.configured this N bounds data c) = local_optimizer c
  /\ force_stop (Summary.configured this N bounds data c) = force_stop c.
Proof.
  unfold Summary.configured.
  destruct (isnan _), (isnan _), (isnan _), (Summary.cap _),
    (Summary.direction _) as [[|]|]; repeat split; reflexivity.
Qed.


End Logs.

Section RunClaims.

Import detail.
Context {U : Type}.
Variable solver : gmap nlopt_opt nlopt_ctx -> nlopt_opt -> list double -> run.

(** The whole effect of [optimize], for both kinds of method tag. *)
Lemma optimize_outcome (method : Method) (this : Optimizer.t U) N func
    initvals bounds (w : World U) :
  let nl := (Summary.started method (Optimizer.m_opt this) N func bounds w).1 in
  let w_run := (Summary.started method (Optimizer.m_opt this) N func bounds w).2 in
  Optimizer.optimize solver method this N func initvals bounds w
  = if Summary.set_up_defined (Optimizer.m_opt this) then
      match solver (ctxs w_run) nl initvals with
      | Return code x opt_f =>
          Some ({| resultcode := code; optimum := x; score := opt_f |},
                {| ctxs := ctxs w; stack := stack w; user := user w;
                   log := log w_run ++ [Optimize nl initvals]
                            ++ Summary.released method N w;
                   tuples := tuples w_run |})
      | Evaluate _ _ => None
      end
    else None.
Proof.
  destruct method as [alg|glob loc]; cbn [Summary.started fst snd Optimizer.optimize].
  - apply optimize_effect.
  - apply optimize_comb_effect.
Qed.

Lemma optimize_returns (method : Method) (this : Optimizer.t U) N func
    initvals bounds (w w' : World U) (r : Result) :
  let nl := (Summary.started method (Optimizer.m_opt this) N func bounds w).1 in
  let w_run := (Summary.started method (Optimizer.m_opt this) N func bounds w).2 in
  Optimizer.optimize solver method this N func initvals bounds w = Some (r, w') ->
  Summary.set_up_defined (Optimizer.m_opt this) = true
  /\ solver (ctxs w_run) nl initvals
     = Return (resultcode r) (optimum r) (score r)
  /\ w' = {| ctxs := ctxs w; stack := stack w; user := user w;
             log := log w_run ++ [Optimize nl initvals]
                      ++ Summary.released method N w;
             tuples := tuples w_run |}.
Proof.
  intros nl w_run. rewrite optimize_outcome. fold nl w_run.
  destruct (Summary.set_up_defined _); [|discriminate].
  destruct (solver (ctxs w_run) nl initvals) as [code x opt_f|p k];
    [|discriminate].
  intros [= <- <-]. repeat split.
Qed.

(** The run that [optimize] starts, on the context it has set up. *)
Lemma nlopt_optimize_started (method : Method) (this : NLoptOpt U) N func
    initvals bounds (w : World U) :
  let nl := (Summary.started method this N func bounds w).1 in
  let w_run := (Summary.started method this N func bounds w).2 in
  nlopt_optimize solver nl initvals w_run
  = match solver (ctxs w_run) nl initvals with
    | Return code x opt_f =>
        Some ((code, x, opt_f),
              {| ctxs := ctxs w_run; stack := stack w_run; user := user w_run;
                 log := log w_run ++ [Optimize nl initvals];
                 tuples := tuples w_run |})
    | Evaluate _ _ => None
    end.
Proof.
  destruct method as [alg|glob loc]; cbn [Summary.started fst snd].
  - apply (nlopt_optimize_dead solver _ _ _
             (Summary.configured this N bounds (fresh (dom (stack w)))
                (nlopt_ctx_new alg N))).
    + apply lookup_insert_eq.
    + intros dir N' data. rewrite configured_objective.
      destruct (Summary.direction this); [|discriminate].
      intros [= _ _ <-]. apply fresh_stack.
  - apply (nlopt_optimize_dead solver _ _ _
             (set_local_optimizer (Summary.loc_handle glob N w)
                (Summary.configured this N bounds (fresh (dom (stack w)))
                   (nlopt_ctx_new glob N)))).
    + apply lookup_insert_eq.
    + intros dir N' data. cbn [objective set_local_optimizer].
      rewrite configured_objective.
      destruct (Summary.direction this); [|discriminate].
      intros [= _ _ <-]. apply fresh_stack.
Qed.

(** [optimize] is: set the contexts up, run the solver on the first one,
    destroy the contexts, return what the run reported. *)
Lemma optimize_is_run (method : Method) (this : Optimizer.t U) N func
    initvals bounds (w : World U) :
  let nl := (Summary.started method (Optimizer.m_opt this) N func bounds w).1 in
  let w_run := (Summary.started method (Optimizer.m_opt this) N func bounds w).2 in
  Summary.set_up_defined (Optimizer.m_opt this) = true ->
  Optimizer.optimize solver method this N func initvals bounds w
  = match nlopt_optimize solver nl initvals w_run with
    | Some ((code, x, opt_f), w_end) =>
        Some ({| resultcode := code; optimum := x; score := opt_f |},
              {| ctxs := ctxs w; stack := stack w_end; user := user w_end;
                 log := log w_end ++ Summary.released method N w;
                 tuples := tuples w_end |})
    | None => None
    end.
Proof.
  intros nl w_run Hdef. rewrite optimize_outcome, Hdef. fold nl w_run.
  unfold nl, w_run. rewrite nlopt_optimize_started. fold nl w_run.
  destruct (solver (ctxs w_run) nl initvals) as [code x opt_f|p k];
    [|reflexivity].
  cbn [stack user log tuples]. do 2 f_equal.
  destruct method; cbn [Summary.started snd Summary.run_world
    Summary.run_world_comb stack user]; f_equal;
    rewrite <- !app_assoc; reflexivity.
Qed.

(** C4, as amended.  One call of [optimize] on a composed tag, on a
    binding whose direction has been set and whose iteration count is at
    most [INT_MAX], creates a context [g] for the global and a context
    [lc] for the local algorithm.  When the solver is started both hold
    the same bounds, the same stop criteria and the same adapter: the same
    direction and instance, registered by the same sequence of
    configuration calls on each, and a context tuple that holds the same
    objective and the same binding, with the handle of its own context.
    [lc] is registered as the local optimizer of [g].  The only run is the
    one on [g], from the initial point: the call is that run followed by
    the destruction of [lc] and of [g], and what the run reports (code,
    final point, score) is the [Result]. *)
Theorem C4_composed_optimize_runs_global
    (glob loc : nlopt_algorithm) (this : Optimizer.t U) (N : nat)
    (func : Func U) (initvals : Input) (bounds : Bounds) (w : World U)
    (dir : Z) :
  m_dir (Optimizer.m_opt this) = Some dir ->
  0 <= StopCriteria.m_max_iterations (m_stopcr (Optimizer.m_opt this)) <= INT_MAX ->
  let binding := Optimizer.m_opt this in
  let g := Summary.glob_handle w in
  let lc := Summary.loc_handle glob N w in
  let data := fresh (dom (stack w)) in
  let w_run := Summary.run_world_comb glob loc binding N func bounds w in
  g <> lc
  /\ (exists cg cl,
        ctxs w_run !! g = Some cg /\ ctxs w_run !! lc = Some cl
        /\ algorithm cg = glob /\ algorithm cl = loc
        /\ Summary.settings cg = Summary.settings cl
        /\ lower_bounds cg = Some (Bound.min <$> bounds)
        /\ upper_bounds cg = Some (Bound.max <$> bounds)
        /\ objective cg = objective cl
        /\ local_optimizer cg = Some lc
        /\ local_optimizer cl = None)
  /\ log w_run
     = log w ++ [Create glob N g; Create loc N lc]
         ++ Summary.set_up_calls binding N g bounds data
         ++ Summary.set_up_calls binding N lc bounds data
         ++ [SetLocalOptimizer g lc]
  /\ tuples w_run
     = tuples w ++ [(data, (func, binding, g)); (data, (func, binding, lc))]
  /\ Summary.runs (log w_run) = Summary.runs (log w)
  /\ Optimizer.optimize solver (NLoptAlgComb glob loc) this N func initvals
       bounds w
     = match nlopt_optimize solver g initvals w_run with
       | Some ((code, x, opt_f), w_end) =>
           Some ({| resultcode := code; optimum := x; score := opt_f |},
                 {| ctxs := ctxs w; stack := stack w_end; user := user w_end;
                    log := log w_end ++ [Destroy lc; Destroy g];
                    tuples := tuples w_end |})
       | None => None
       end.
Proof.
  intros Hdir Hcap binding g lc data w_run.
  destruct (loc_handle_fresh glob N w) as [Hne _]. fold g lc in Hne.
  split; [congruence|]. split; [|split; [reflexivity|split; [reflexivity|split]]].
  - exists (set_local_optimizer lc
              (Summary.configured binding N bounds data (nlopt_ctx_new glob N))),
           (Summary.configured binding N bounds data (nlopt_ctx_new loc N)).
    destruct (configured_bounds binding N bounds data (nlopt_ctx_new glob N))
      as (Hlb & Hub & Halg & Hloc).
    destruct (configured_bounds binding N bounds data (nlopt_ctx_new loc N))
      as (_ & _ & Halg' & Hloc').
    split; [apply lookup_insert_eq|].
    split.
    { unfold w_run, Summary.run_world_comb. cbn [ctxs]. fold g lc data.
      rewrite lookup_insert_ne, lookup_insert_eq by congruence. reflexivity. }
    split; [exact Halg|]. split; [exact Halg'|].
    split; [apply (configured_settings_new binding N bounds data glob loc N N)|].
    split; [exact Hlb|]. split; [exact Hub|].
    split.
    { cbn [objective set_local_optimizer]. rewrite !configured_objective.
      reflexivity. }
    split; [reflexivity|exact Hloc'].
  - unfold w_run, Summary.run_world_comb. cbn [log]. fold g lc data.
    rewrite !runs_app, !set_up_calls_no_run. cbn. rewrite !app_nil_r. reflexivity.
  - apply (optimize_is_run (NLoptAlgComb glob loc) this N func initvals bounds w).
    apply (set_up_defined_in_range binding dir Hdir Hcap).
Qed.



End RunClaims.

Section SetUpClaims.

Import detail.
Context {U : Type}.

Lemma OptDir_of_int_None (z : Z) :
  z <> OptDir_to_int MIN -> z <> OptDir_to_int MAX -> OptDir_of_int z = None.
Proof.
  cbn. intros H0 H1. destruct z as [|p|p]; try reflexivity; try congruence.
  destruct p; try reflexivity; congruence.
Qed.

(** Which stop-criteria calls [set_up] makes. *)
Lemma set_up_calls_criteria (this : NLoptOpt U) N nl bounds data :
  let sc := m_stopcr this in
  let calls := Summary.set_up_calls this N nl bounds data in
  (forall h v, SetFtolAbs h v ∈ calls
     <-> h = nl /\ v = StopCriteria.abs_score_diff sc /\ isnan v = false)
  /\ (forall h v, SetFtolRel h v ∈ calls
     <-> h = nl /\ v = StopCriteria.rel_score_diff sc /\ isnan v = false)
  /\ (forall h v, SetStopval h v ∈ calls
     <-> h = nl /\ v = StopCriteria.stop_score sc /\ isnan v = false)
  /\ (forall h v, SetMaxeval h v ∈ calls
     <-> h = nl /\ Summary.cap sc = Some v).
Proof.
  intros sc calls. unfold calls, Summary.set_up_calls. fold sc.
  destruct (isnan (StopCriteria.abs_score_diff sc)) eqn:Ha,
    (isnan (StopCriteria.rel_score_diff sc)) eqn:Hr,
    (isnan (StopCriteria.stop_score sc)) eqn:Hs,
    (Summary.cap sc) as [maxeval|],
    (Summary.direction this) as [[|]|];
    cbn [app]; (split; [|split; [|split]]); intros h v; (split; intros H);
    repeat match goal with
    | H : _ ∈ _ :: _ |- _ => apply elem_of_cons in H; destruct H as [H|H]
    | H : _ ∈ [] |- _ => apply elem_of_nil in H; destruct H
    | H : _ /\ _ |- _ => destruct H
    end;
    try discriminate; try congruence;
    try (injection H as -> ->; repeat split; assumption);
    try (injection H as -> ->; repeat split; reflexivity);
    subst;
    repeat match goal with
    | H : Some _ = Some _ |- _ => injection H as ->
    end;
    rewrite !elem_of_cons; auto 10.
Qed.

Lemma configured_criteria (this : NLoptOpt U) N bounds data c :
  let sc := m_stopcr this in
  let c' := Summary.configured this N bounds data c in
  ftol_abs c' = (if isnan (StopCriteria.abs_score_diff sc) then ftol_abs c
                 else Some (StopCriteria.abs_score_diff sc))
  /\ ftol_rel c' = (if isnan (StopCriteria.rel_score_diff sc) then ftol_rel c
                    else Some (StopCriteria.rel_score_diff sc))
  /\ stopval c' = (if isnan (StopCriteria.stop_score sc) then stopval c
                   else Some (StopCriteria.stop_score sc))
  /\ maxeval c' = (if Summary.cap sc is Some v then Some v else maxeval c).
Proof.
  intros sc c'. unfold c', Summary.configured. fold sc.
  destruct (isnan (StopCriteria.abs_score_diff sc)),
    (isnan (StopCriteria.rel_score_diff sc)),
    (isnan (StopCriteria.stop_score sc)),
    (Summary.cap sc),
    (Summary.direction this) as [[|]|]; repeat split.
Qed.

(** Which objective calls [set_up] makes. *)
Lemma set_up_calls_objective (this : NLoptOpt U) N nl bounds data h n p :
  (SetMinObjective h n p ∈ Summary.set_up_calls this N nl bounds data
   <-> Summary.direction this = Some MIN /\ h = nl /\ n = N /\ p = data)
  /\ (SetMaxObjective h n p ∈ Summary.set_up_calls this N nl bounds data
   <-> Summary.direction this = Some MAX /\ h = nl /\ n = N /\ p = data).
Proof.
  unfold Summary.set_up_calls.
  destruct (isnan _), (isnan _), (isnan _), (Summary.cap _),
    (Summary.direction this) as [[|]|];
    cbn [app]; (split; split; intros H);
    repeat match goal with
    | H : _ ∈ _ :: _ |- _ => apply elem_of_cons in H; destruct H as [H|H]
    | H : _ ∈ [] |- _ => apply elem_of_nil in H; destruct H
    | H : _ /\ _ |- _ => destruct H
    end;
    try discriminate;
    try (injection H as -> -> ->; repeat split; reflexivity);
    subst; rewrite !elem_of_cons; auto 10.
Qed.

(** C6, as amended.  [set_up] on a live context [nl], for a binding whose
    direction has been set and whose iteration count is at most [INT_MAX]:
    the absolute tolerance, the relative tolerance and the stop score are
    each set in the context, by one call of the corresponding solver
    function with the value of the field, exactly when the field is not
    NaN, and left as they were when it is NaN; the evaluation cap is set,
    to the count, exactly when [max_iterations] is not 0, and left as it
    was when it is 0. *)
Theorem C6_set_up_translates_set_fields
    (this : NLoptOpt U) (N : nat) (nl : nlopt_opt) (func : Func U)
    (bounds : Bounds) (w : World U) (c : nlopt_ctx) (dir : Z) :
  ctxs w !! nl = Some c ->
  m_dir this = Some dir ->
  0 <= StopCriteria.m_max_iterations (m_stopcr this) <= INT_MAX ->
  let sc := m_stopcr this in
  exists w' c' calls,
    set_up this N nl func bounds w = Some (tt, w')
    /\ ctxs w' !! nl = Some c'
    /\ log w' = log w ++ calls
    /\ ftol_abs c' = (if isnan (StopCriteria.m_abs_score_diff sc) then ftol_abs c
                      else Some (StopCriteria.m_abs_score_diff sc))
    /\ ftol_rel c' = (if isnan (StopCriteria.m_rel_score_diff sc) then ftol_rel c
                      else Some (StopCriteria.m_rel_score_diff sc))
    /\ stopval c' = (if isnan (StopCriteria.m_stop_score sc) then stopval c
                     else Some (StopCriteria.m_stop_score sc))
    /\ maxeval c' = (if StopCriteria.m_max_iterations sc =? 0 then maxeval c
                     else Some (StopCriteria.m_max_iterations sc))
    /\ (forall h v, SetFtolAbs h v ∈ calls
          <-> h = nl /\ v = StopCriteria.m_abs_score_diff sc /\ isnan v = false)
    /\ (forall h v, SetFtolRel h v ∈ calls
          <-> h = nl /\ v = StopCriteria.m_rel_score_diff sc /\ isnan v = false)
    /\ (forall h v, SetStopval h v ∈ calls
          <-> h = nl /\ v = StopCriteria.m_stop_score sc /\ isnan v = false)
    /\ (forall h v, SetMaxeval h v ∈ calls
          <-> h = nl /\ v = StopCriteria.m_max_iterations sc
              /\ StopCriteria.m_max_iterations sc <> 0).
Proof.
  intros Hlive Hdir Hrange sc.
  pose proof (cap_in_range sc Hrange) as Hcap.
  eexists _, _, _. split.
  { rewrite (set_up_live_world _ _ _ _ _ _ _ Hlive).
    rewrite (set_up_defined_in_range this dir Hdir Hrange). reflexivity. }
  cbn [ctxs log]. split; [apply lookup_insert_eq|]. split; [reflexivity|].
  destruct (configured_criteria this N bounds (fresh (dom (stack w))) c)
    as (Ha & Hr & Hs & Hm).
  destruct (set_up_calls_criteria this N nl bounds (fresh (dom (stack w))))
    as (Ca & Cr & Cs & Cm).
  fold sc in Ha, Hr, Hs, Hm, Ca, Cr, Cs, Cm.
  split; [exact Ha|]. split; [exact Hr|]. split; [exact Hs|].
  split.
  { rewrite Hm, Hcap. destruct (_ =? 0); reflexivity. }
  split; [exact Ca|]. split; [exact Cr|]. split; [exact Cs|].
  intros h v. rewrite Cm, Hcap.
  destruct (Z.eqb_spec (StopCriteria.m_max_iterations sc) 0) as [Hz|Hz].
  - split; [intros [_ H]; discriminate|intros (_ & _ & H); contradiction].
  - split.
    + intros [-> [= <-]]. repeat split. exact Hz.
    + intros (-> & -> & _). split; reflexivity.
Qed.

(** C10.  The constructor stores nothing in the direction, and neither
    does [set_criteria]; only [to_min] and [to_max] do, MIN and MAX.  On a
    binding whose direction was never assigned the [switch] of [set_up]
    reads an object that holds no value, and the call has no behaviour.
    When the direction holds a value that is neither MIN nor MAX, a call
    of [set_up] that returns has made no call of [nlopt_set_min_objective]
    or [nlopt_set_max_objective] and has left the objective of the context
    as it was; it does return on a live context when the iteration count
    is at most [INT_MAX]. *)
Theorem C10_no_default_direction
    (stopcr : option (StopCriteria.t U)) (cr : StopCriteria.t U) (dir : Z)
    (N : nat) (nl : nlopt_opt) (func : Func U) (bounds : Bounds) (w : World U)
    (c : nlopt_ctx) :
  dir <> OptDir_to_int MIN ->
  dir <> OptDir_to_int MAX ->
  ctxs w !! nl = Some c ->
  let this := Optimizer.ctor stopcr in
  m_dir (Optimizer.m_opt this) = None
  /\ m_dir (Optimizer.m_opt (Optimizer.set_criteria cr this)) = None
  /\ m_dir (Optimizer.m_opt (Optimizer.to_min this)) = Some (OptDir_to_int MIN)
  /\ m_dir (Optimizer.m_opt (Optimizer.to_max this)) = Some (OptDir_to_int MAX)
  /\ set_up (Optimizer.m_opt this) N nl func bounds w = None
  /\ (forall w',
        set_up (set_dir dir (Optimizer.m_opt this)) N nl func bounds w
        = Some (tt, w') ->
        exists calls,
          log w' = log w ++ calls
          /\ objective <$> ctxs w' !! nl = Some (objective c)
          /\ forall h n data,
               (SetMinObjective h n data ∉ calls)
               /\ (SetMaxObjective h n data ∉ calls))
  /\ (0 <= StopCriteria.m_max_iterations (default StopCriteria.ctor stopcr)
           <= INT_MAX ->
      is_Some (set_up (set_dir dir (Optimizer.m_opt this)) N nl func bounds w)).
Proof.
  intros Hmin Hmax Hlive this.
  split; [reflexivity|]. split; [reflexivity|]. split; [reflexivity|].
  split; [reflexivity|]. split.
  { rewrite (set_up_live_world _ _ _ _ _ _ _ Hlive).
    rewrite set_up_defined_unset; reflexivity. }
  set (that := set_dir dir (Optimizer.m_opt this)).
  assert (Hnone : Summary.direction that = None).
  { unfold Summary.direction, that. cbn [m_dir set_dir].
    apply OptDir_of_int_None; assumption. }
  pose proof (set_up_live_world that N nl func bounds w c Hlive) as Hrun.
  split.
  - intros w' Hw'. rewrite Hrun in Hw'.
    destruct (Summary.set_up_defined that); [|discriminate].
    injection Hw' as <-. cbn [ctxs log].
    eexists. split; [reflexivity|].
    rewrite lookup_insert_eq. split.
    + cbn [fmap option_fmap option_map]. rewrite configured_objective, Hnone.
      reflexivity.
    + intros h n data.
      destruct (set_up_calls_objective that N nl bounds (fresh (dom (stack w)))
                  h n data) as [Cmin Cmax].
      rewrite Hnone in Cmin, Cmax.
      split; intros H; [apply Cmin in H|apply Cmax in H];
        destruct H as [H _]; discriminate.
  - intros Hrange. rewrite Hrun.
    rewrite (set_up_defined_in_range that dir eq_refl Hrange).
    eexists. reflexivity.
Qed.

End SetUpClaims.

(** The sample optimizer (minimizing, 100 iterations) on the genetic tag,
    from the idle state, with a run that fails at once: the two context
    tuples hold the same objective and binding, and the [Result] is what
    the run on the context 0 reported. *)
Lemma C4_witness :
  detail.tuples
    (Summary.run_world_comb detail.NLOPT_GN_ESCH detail.NLOPT_LN_NELDERMEAD
       Sample.binding 2 Sample.first_of_two Sample.unit_square Sample.idle)
  = [(0%nat, (Sample.first_of_two, Sample.binding, 0%nat));
     (0%nat, (Sample.first_of_two, Sample.binding, 1%nat))]
  /\ fst <$> Optimizer.optimize Sample.failing_solver AlgNLoptGenetic
               Sample.minimizer 2 Sample.first_of_two [d 0; d 0]
               Sample.unit_square Sample.idle
     = Some {| resultcode := -1; optimum := [d 0; d 0]; score := None |}.
Proof.
  destruct (C4_composed_optimize_runs_global Sample.failing_solver
              detail.NLOPT_GN_ESCH detail.NLOPT_LN_NELDERMEAD Sample.minimizer 2
              Sample.first_of_two [d 0; d 0] Sample.unit_square Sample.idle 0)
    as (_ & _ & _ & Htuples & _ & Hrun).
  - reflexivity.
  - cbn. unfold INT_MAX. lia.
  - split; [exact Htuples|].
    change AlgNLoptGenetic
      with (detail.NLoptAlgComb detail.NLOPT_GN_ESCH detail.NLOPT_LN_NELDERMEAD).
    rewrite Hrun. reflexivity.
Defined.

(** C4 as stated fails for an iteration count above [INT_MAX]: with
    [max_iterations(2^31)] the first [set_up] has no behaviour at the
    conversion of the count, and the call configures and returns
    nothing, even for a run that would end at once. *)
Lemma C4_counterexample :
  StopCriteria.m_max_iterations
    (Optimizer.get_criteria Sample.minimizer_2_31) = 2 ^ 31
  /\ Optimizer.optimize Sample.failing_solver AlgNLoptGenetic
       Sample.minimizer_2_31 2 Sample.first_of_two [d 0; d 0]
       Sample.unit_square Sample.idle
     = None.
Proof. split; [reflexivity|vm_compute; reflexivity]. Qed.





(** The sample binding (absolute tolerance 0.5, no relative tolerance, no
    stop score, 100 iterations) on a fresh live context. *)
Lemma C6_witness :
  exists w' c',
    detail.set_up Sample.binding 2 0%nat Sample.first_of_two Sample.unit_square
      Sample.one_context = Some (tt, w')
    /\ detail.ctxs w' !! 0%nat = Some c'
    /\ detail.ftol_abs c' = Some (half 1)
    /\ detail.ftol_rel c' = None
    /\ detail.stopval c' = None
    /\ detail.maxeval c' = Some 100.
Proof.
  destruct (C6_set_up_translates_set_fields Sample.binding 2 0%nat
              Sample.first_of_two Sample.unit_square Sample.one_context
              (detail.nlopt_ctx_new detail.NLOPT_LN_SBPLX 2) 0)
    as (w' & c' & calls & Hrun & Hc & _ & Ha & Hr & Hs & Hm & _).
  - reflexivity.
  - reflexivity.
  - cbn. unfold INT_MAX. lia.
  - exists w', c'. repeat split; assumption.
Defined.

(** C6 as stated fails for the iteration count: [max_iterations(2^31)] is
    accepted by the setter, the field being [unsigned], but [set_up] then
    converts 2^31 to the [int] parameter of [nlopt_set_maxeval], which
    has no value for it: no cap of 2^31 evaluations is installed. *)
Lemma C6_counterexample :
  StopCriteria.set_max_iterations 0%nat (of_Z (2 ^ 31)) Sample.configs
  = Some (0%nat,
          <[0%nat := StopCriteria.assign_max_iterations (2 ^ 31) StopCriteria.ctor]>
            Sample.configs)
  /\ to_int (StopCriteria.max_iterations
               (detail.m_stopcr Sample.binding_2_31)) = None
  /\ detail.set_up Sample.binding_2_31 2 0%nat Sample.first_of_two
       Sample.unit_square Sample.one_context = None.
Proof. repeat split. Qed.

(** An optimizer with the sample criteria and the direction 7, on a fresh
    live context. *)
Lemma C10_witness :
  exists w' calls,
    detail.set_up
      (detail.set_dir 7 (Optimizer.m_opt (Optimizer.ctor (Some Sample.criteria))))
      2 0%nat Sample.first_of_two Sample.unit_square Sample.one_context
    = Some (tt, w')
    /\ detail.log w' = detail.log Sample.one_context ++ calls
    /\ detail.objective <$> detail.ctxs w' !! 0%nat = Some None
    /\ forall h n data,
         (detail.SetMinObjective h n data ∉ calls)
         /\ (detail.SetMaxObjective h n data ∉ calls).
Proof.
  destruct (C10_no_default_direction (Some Sample.criteria) Sample.criteria 7
              2 0%nat Sample.first_of_two Sample.unit_square Sample.one_context
              (detail.nlopt_ctx_new detail.NLOPT_LN_SBPLX 2))
    as (_ & _ & _ & _ & _ & Hret & Hdef).
  - cbn. lia.
  - cbn. lia.
  - reflexivity.
  - destruct Hdef as [[[] w'] Hw']; [cbn; unfold INT_MAX; lia|].
    destruct (Hret w' Hw') as (calls & Hlog & Hobj & Hno).
    exists w', calls. repeat split; try assumption; apply Hno.
Defined.

Section CriteriaClaims.

Context {U : Type}.
Import StopCriteria.

Lemma method_returns_this (this : ref) (body : t U -> option (t U))
    (st : store U) (sc sc' : t U) :
  st !! this = Some sc -> body sc = Some sc' ->
  method this body st = Some (this, <[this := sc']> st).
Proof. intros Hst Hbody. unfold method. rewrite Hst, Hbody. reflexivity. Qed.

Lemma get_insert {A : Type} (getter : t U -> A) (this : ref) (st : store U)
    (sc : t U) :
  get getter this (<[this := sc]> st) = Some (getter sc).
Proof. unfold get, store in *. rewrite lookup_insert_eq. reflexivity. Qed.

(** C9, as amended.  Called on an object, each setter returns that object,
    with the one field assigned and the rest of the store as it was (for
    [max_iterations], when the argument converts to [unsigned]).  For
    [abs_score_diff], [rel_score_diff] and [stop_score] the getter then
    returns the argument, for every argument.  For [max_iterations] the
    field holds the argument truncated toward zero and the getter returns
    that count as a double: the argument itself when it is a whole number
    from 0 to 2^32 - 1. *)
Theorem C9_setters_chain_and_round_trip
    (st : store U) (this : ref) (sc : t U) :
  st !! this = Some sc ->
  (forall v,
     set_abs_score_diff this v st
     = Some (this, <[this := assign_abs_score_diff v sc]> st)
     /\ get abs_score_diff this (<[this := assign_abs_score_diff v sc]> st)
        = Some v)
  /\ (forall v,
     set_rel_score_diff this v st
     = Some (this, <[this := assign_rel_score_diff v sc]> st)
     /\ get rel_score_diff this (<[this := assign_rel_score_diff v sc]> st)
        = Some v)
  /\ (forall v,
     set_stop_score this v st
     = Some (this, <[this := assign_stop_score v sc]> st)
     /\ get stop_score this (<[this := assign_stop_score v sc]> st) = Some v)
  /\ (forall cond,
     set_stop_condition this cond st
     = Some (this, <[this := assign_stop_condition cond sc]> st))
  /\ (forall v n,
     to_unsigned v = Some n ->
     set_max_iterations this v st
     = Some (this, <[this := assign_max_iterations n sc]> st)
     /\ get max_iterations this (<[this := assign_max_iterations n sc]> st)
        = Some (of_Z n))
  /\ (forall n,
     0 <= n <= UINT_MAX ->
     exists st',
       set_max_iterations this (of_Z n) st = Some (this, st')
       /\ get max_iterations this st' = Some (of_Z n)).
Proof.
  intros Hst.
  split; [|split; [|split; [|split; [|split]]]].
  - intros v. split; [|apply get_insert].
    apply (method_returns_this _ _ _ sc); [exact Hst|reflexivity].
  - intros v. split; [|apply get_insert].
    apply (method_returns_this _ _ _ sc); [exact Hst|reflexivity].
  - intros v. split; [|apply get_insert].
    apply (method_returns_this _ _ _ sc); [exact Hst|reflexivity].
  - intros cond.
    apply (method_returns_this _ _ _ sc); [exact Hst|reflexivity].
  - intros v n Hv. split; [|apply (get_insert max_iterations)].
    apply (method_returns_this _ _ _ sc); [exact Hst|]. rewrite Hv.
    reflexivity.
  - intros n Hn. eexists. split.
    + apply (method_returns_this _ _ _ sc); [exact Hst|].
      rewrite (to_unsigned_of_Z n Hn). reflexivity.
    + apply (get_insert max_iterations).
Qed.

End CriteriaClaims.

(** On the default criteria: 7 iterations are read back as 7, and the
    other setters give back what they were given. *)
Lemma C9_witness :
  (exists st',
     StopCriteria.set_max_iterations 0%nat (of_Z 7) Sample.configs
     = Some (0%nat, st')
     /\ StopCriteria.get StopCriteria.max_iterations 0%nat st' = Some (of_Z 7))
  /\ (exists st',
     StopCriteria.set_abs_score_diff 0%nat (half 5) Sample.configs
     = Some (0%nat, st')
     /\ StopCriteria.get StopCriteria.abs_score_diff 0%nat st' = Some (half 5)).
Proof.
  destruct (C9_setters_chain_and_round_trip Sample.configs 0%nat
              StopCriteria.ctor)
    as (Habs & _ & _ & _ & _ & Hmax).
  - reflexivity.
  - split.
    + apply Hmax. unfold UINT_MAX. lia.
    + eexists. apply (Habs (half 5)).
Defined.

(** C9 as stated fails for [max_iterations]: the setter called with 2.5
    stores 2, and the getter returns 2.0. *)
Lemma C9_counterexample :
  exists st',
    StopCriteria.set_max_iterations 0%nat (half 5) Sample.configs
    = Some (0%nat, st')
    /\ StopCriteria.get StopCriteria.max_iterations 0%nat st' = Some (of_Z 2)
    /\ StopCriteria.get StopCriteria.max_iterations 0%nat st' <> Some (half 5).
Proof.
  eexists. split; [reflexivity|]. split; [reflexivity|].
  vm_compute. discriminate.
Qed.

(** * Three complete calls

    A solver that fails at once, on the sample optimizer: the [Result]
    carries the failure code and the initial point, and the call log shows
    every context created and destroyed.  A solver that evaluates the
    objective: the call has no outcome. *)

Example optimize_subplex_failing :
  Optimizer.optimize Sample.failing_solver AlgNLoptSubplex Sample.minimizer 2
    Sample.first_of_two [d 0; d 0] Sample.unit_square Sample.idle
  = Some ({| resultcode := -1; optimum := [d 0; d 0]; score := None |},
          {| detail.ctxs := ∅; detail.stack := ∅; detail.user := 0%nat;
             detail.log :=
               [detail.Create detail.NLOPT_LN_SBPLX 2 0%nat;
                detail.SetLowerBounds 0%nat [d 0; d 0];
                detail.SetUpperBounds 0%nat [d 1; d 1];
                detail.SetFtolAbs 0%nat (half 1);
                detail.SetMaxeval 0%nat 100;
                detail.SetMinObjective 0%nat 2 0%nat;
                detail.Optimize 0%nat [d 0; d 0];
                detail.Destroy 0%nat];
             detail.tuples :=
               [(0%nat, (Sample.first_of_two, Sample.binding, 0%nat))] |}).
Proof. vm_compute. reflexivity. Qed.

Example optimize_genetic_failing :
  Optimizer.optimize Sample.failing_solver AlgNLoptGenetic
    (Optimizer.to_max (Optimizer.ctor (Some Sample.criteria))) 2
    Sample.first_of_two [d 0; d 0] Sample.unit_square Sample.idle
  = Some ({| resultcode := -1; optimum := [d 0; d 0]; score := None |},
          {| detail.ctxs := ∅; detail.stack := ∅; detail.user := 0%nat;
             detail.log :=
               [detail.Create detail.NLOPT_GN_ESCH 2 0%nat;
                detail.Create detail.NLOPT_LN_NELDERMEAD 2 1%nat;
                detail.SetLowerBounds 0%nat [d 0; d 0];
                detail.SetUpperBounds 0%nat [d 1; d 1];
                detail.SetFtolAbs 0%nat (half 1);
                detail.SetMaxeval 0%nat 100;
                detail.SetMaxObjective 0%nat 2 0%nat;
                detail.SetLowerBounds 1%nat [d 0; d 0];
                detail.SetUpperBounds 1%nat [d 1; d 1];
                detail.SetFtolAbs 1%nat (half 1);
                detail.SetMaxeval 1%nat 100;
                detail.SetMaxObjective 1%nat 2 0%nat;
                detail.SetLocalOptimizer 0%nat 1%nat;
                detail.Optimize 0%nat [d 0; d 0];
                detail.Destroy 1%nat;
                detail.Destroy 0%nat];
             detail.tuples :=
               [(0%nat,
                 (Sample.first_of_two,
                  Optimizer.m_opt
                    (Optimizer.to_max (Optimizer.ctor (Some Sample.criteria))),
                  0%nat));
                (0%nat,
                 (Sample.first_of_two,
                  Optimizer.m_opt
                    (Optimizer.to_max (Optimizer.ctor (Some Sample.criteria))),
                  1%nat))] |}).
Proof. vm_compute. reflexivity. Qed.

Example optimize_subplex_evaluating :
  Optimizer.optimize Sample.one_evaluation AlgNLoptSubplex Sample.minimizer 2
    Sample.first_of_two [d 0; d 0] Sample.unit_square Sample.idle
  = None.
Proof. vm_compute. reflexivity. Qed.

(** * Further properties *)

Section Further.

Import detail.
Context {U : Type}.

(** X1.  On an array of more than [N] doubles, [carray_tuple<N>] gives the
    values at the indices [N], [N-1], ..., [1], in this order. *)
Theorem X1_carray_tuple_law (N : nat) (v : list double) :
  (N < length v)%nat -> carray_tuple N v = Some (rev (take N (drop 1 v))).
Proof. apply to_tuple_reads. Qed.

(** X2.  With default-constructed stop criteria (NaN in the three score
    fields, 0 iterations) [set_up] makes no tolerance, stop-score or
    evaluation-cap call: these settings of the context stay as they were.
    This holds whatever value the direction was set to. *)
Theorem X2_default_criteria_set_nothing
    (dir : Z) (N : nat) (nl : nlopt_opt) (func : Func U)
    (bounds : Bounds) (w : World U) (c : nlopt_ctx) :
  ctxs w !! nl = Some c ->
  exists w' c' calls,
    set_up (set_dir dir (NLoptOpt_ctor None)) N nl func bounds w = Some (tt, w')
    /\ ctxs w' !! nl = Some c'
    /\ log w' = log w ++ calls
    /\ (ftol_abs c', ftol_rel c', stopval c', maxeval c')
       = (ftol_abs c, ftol_rel c, stopval c, maxeval c)
    /\ forall h v maxeval,
         (SetFtolAbs h v ∉ calls) /\ (SetFtolRel h v ∉ calls)
         /\ (SetStopval h v ∉ calls) /\ (SetMaxeval h maxeval ∉ calls).
Proof.
  intros Hlive.
  eexists _, _, _. split.
  { rewrite (set_up_live_world _ _ _ _ _ _ _ Hlive). reflexivity. }
  cbn [ctxs log]. split; [apply lookup_insert_eq|]. split; [reflexivity|].
  unfold Summary.configured, Summary.set_up_calls, Summary.direction. cbn.
  split.
  - destruct (OptDir_of_int dir) as [[|]|]; reflexivity.
  - intros h v maxeval.
    destruct (OptDir_of_int dir) as [[|]|]; repeat split; intros H;
      repeat match goal with
      | H : _ ∈ _ :: _ |- _ => apply elem_of_cons in H; destruct H as [H|H]
      | H : _ ∈ [] |- _ => apply elem_of_nil in H; destruct H
      end; discriminate.
Qed.

End Further.

(** X1 on an array of three doubles, for [N = 2]. *)
Lemma X1_witness :
  detail.carray_tuple 2 [d 1; d 2; d 3] = Some [d 3; d 2].
Proof.
  apply (X1_carray_tuple_law 2 [d 1; d 2; d 3]). cbn. lia.
Defined.

(** X2 on a fresh live context. *)
Lemma X2_witness :
  exists w' c',
    detail.set_up (detail.set_dir 0 (detail.NLoptOpt_ctor (U:=Sample.U) None))
      2 0%nat Sample.first_of_two Sample.unit_square Sample.one_context
    = Some (tt, w')
    /\ detail.ctxs w' !! 0%nat = Some c'
    /\ detail.maxeval c' = None
    /\ detail.ftol_abs c' = None.
Proof.
  destruct (X2_default_criteria_set_nothing (U:=Sample.U) 0 2 0%nat
              Sample.first_of_two Sample.unit_square Sample.one_context
              (detail.nlopt_ctx_new detail.NLOPT_LN_SBPLX 2))
    as (w' & c' & calls & Hrun & Hc & _ & Hset & _).
  - reflexivity.
  - exists w', c'. injection Hset as Ha _ _ Hm.
    repeat split; assumption.
Defined.

Section FurtherRuns.

Import detail.
Context {U : Type}.
Variable solver : gmap nlopt_opt nlopt_ctx -> nlopt_opt -> list double -> run.

(** X3.  The calls of a single-algorithm [optimize] that returns, in
    order: [nlopt_create], the calls of [set_up] on the new handle, one
    [nlopt_optimize] on the initial point, [nlopt_destroy]; the automatic
    objects and the live contexts after the call are those before it. *)
Theorem X3_single_optimize_call_sequence
    (alg : nlopt_algorithm) (this : Optimizer.t U) (N : nat) (func : Func U)
    (initvals : Input) (bounds : Bounds) (w w' : World U) (r : Result) :
  Optimizer.optimize solver (NLoptAlg alg) this N func initvals bounds w
  = Some (r, w') ->
  let nl := fresh (dom (ctxs w)) in
  log w'
  = log w ++ [Create alg N nl]
      ++ Summary.set_up_calls (Optimizer.m_opt this) N nl bounds
           (fresh (dom (stack w)))
      ++ [Optimize nl initvals; Destroy nl]
  /\ ctxs w' = ctxs w
  /\ stack w' = stack w.
Proof.
  intros Hrun nl.
  destruct (optimize_returns solver (NLoptAlg alg) this N func initvals bounds
              w w' r Hrun) as (_ & _ & ->).
  cbn [ctxs stack log Summary.started Summary.released snd fst].
  unfold Summary.run_world. cbn [log]. fold nl.
  rewrite <- !app_assoc. repeat split.
Qed.

End FurtherRuns.

(** X3 on the sample optimizer, with a run that fails at once. *)
Lemma X3_witness :
  exists r w',
    Optimizer.optimize Sample.failing_solver AlgNLoptSubplex Sample.minimizer 2
      Sample.first_of_two [d 0; d 0] Sample.unit_square Sample.idle
    = Some (r, w')
    /\ detail.ctxs w' = detail.ctxs Sample.idle
    /\ detail.stack w' = detail.stack Sample.idle.
Proof.
  destruct (Optimizer.optimize Sample.failing_solver AlgNLoptSubplex
              Sample.minimizer 2 Sample.first_of_two [d 0; d 0]
              Sample.unit_square Sample.idle) as [[r w']|] eqn:Hrun;
    [|vm_compute in Hrun; discriminate].
  exists r, w'. split; [reflexivity|].
  destruct (X3_single_optimize_call_sequence Sample.failing_solver
              detail.NLOPT_LN_SBPLX Sample.minimizer 2 Sample.first_of_two
              [d 0; d 0] Sample.unit_square Sample.idle w' r Hrun)
    as (_ & Hctxs & Hstack).
  split; assumption.
Defined.

(** * More on the code *)

(** ** Conversions of halves and of negative integers *)

Section MoreConversions.

(** A number [± p * 2^e] whose [p] has at most 53 bits, for an exponent
    [e] between -1000 and 0, is a double: rounding it is exact. *)
Lemma binary_round_exact (s : bool) (p : positive) (e : Z) :
  Zpos (digits2_pos p) <= 53 -> -1000 <= e <= 0 ->
  exists m e', binary_round prec emax s p e = S754_finite s m e'
               /\ e' <= e /\ Zpos m = Zpos p * 2 ^ (e - e').
Proof.
  intros Hd He. unfold binary_round.
  set (dg := digits2_pos p) in *.
  assert (Hf : fexp prec emax (Zpos dg + e) = Zpos dg + e - 53).
  { unfold fexp, emin, prec, emax. lia. }
  rewrite Hf. unfold shl_align.
  destruct (Zpos dg + e - 53 - e) as [|k|k] eqn:Hk; try lia.
  - exists p, e. split; [|split; [lia|]].
    + unfold binary_round_aux, shr_fexp. simpl Zdigits2. fold dg.
      assert (Hf2 : fexp prec emax (Zpos dg + e) - e = 0) by (rewrite Hf; lia).
      rewrite Hf2. simpl. fold dg. rewrite Hf2. simpl.
      replace (e <=? emax - prec) with true; [reflexivity|].
      symmetry. apply Z.leb_le. unfold emax, prec. lia.
    + rewrite Z.sub_diag. simpl. lia.
  - exists (Pos.iter xO p k), (Zpos dg + e - 53).
    split; [|split; [lia | rewrite Zpos_iter_xO; f_equal; f_equal; lia]].
    unfold binary_round_aux, shr_fexp. simpl Zdigits2.
    rewrite digits2_pos_iter_xO. fold dg.
    assert (Hf2 : fexp prec emax (Zpos (dg + k) + (Zpos dg + e - 53))
                  - (Zpos dg + e - 53) = 0).
    { unfold fexp, emin, prec, emax. lia. }
    rewrite Hf2. simpl. rewrite digits2_pos_iter_xO. fold dg. rewrite Hf2. simpl.
    replace (Zpos dg + e - 53 <=? emax - prec) with true; [reflexivity|].
    symmetry. apply Z.leb_le. unfold emax, prec. lia.
Qed.

(** Truncation of [z * 2^e] is the quotient of [z] by [2^-e], rounded
    toward zero. *)
Lemma trunc_binary_normalize (z e : Z) :
  - 2 ^ 53 < z < 2 ^ 53 -> -1000 <= e <= 0 ->
  trunc (binary_normalize prec emax z e false) = Some (Z.quot z (2 ^ (- e))).
Proof.
  intros Hz He.
  assert (Hpow : 0 < 2 ^ (- e)) by (apply Z.pow_pos_nonneg; lia).
  assert (Hmag : forall (s : bool) (p : positive), Zpos p < 2 ^ 53 ->
            trunc (binary_round prec emax s p e)
            = Some (cond_Zopp s (Zpos p / 2 ^ (- e)))).
  { intros s p Hp.
    destruct (binary_round_exact s p e) as (m & e' & -> & He' & Hm);
      [apply digits2_pos_bound; lia | lia |].
    cbn [trunc]. do 2 f_equal.
    assert (Hsplit : 2 ^ (- e') = 2 ^ (- e) * 2 ^ (e - e')).
    { rewrite <- Z.pow_add_r by lia. f_equal. lia. }
    destruct e' as [|k|k]; try lia.
    - assert (e = 0) by lia. subst e. rewrite Z.shiftl_0_r.
      simpl in Hm. simpl. rewrite Z.div_1_r. lia.
    - rewrite Z.shiftr_div_pow2 by lia.
      change (Z.pos k) with (- Z.neg k). rewrite Hsplit, Hm.
      rewrite Z.div_mul_cancel_r; [reflexivity|lia|].
      apply Z.pow_nonzero; lia. }
  destruct z as [|p|p]; cbn [binary_normalize].
  - cbn [trunc]. rewrite Z.quot_0_l by lia. reflexivity.
  - rewrite Hmag by lia. cbn [cond_Zopp].
    rewrite Z.quot_div_nonneg by lia. reflexivity.
  - rewrite Hmag by lia. cbn [cond_Zopp].
    change (Z.neg p) with (- Z.pos p).
    rewrite Z.quot_opp_l by lia. rewrite Z.quot_div_nonneg by lia. reflexivity.
Qed.

End MoreConversions.

(** ** The unpacking and the adapter *)

Section MoreAdapter.

Import detail.
Context {U : Type}.

(** X4.  [carray_tuple<N>(v)] reads inside the array exactly when [N] is 0
    or the array has more than [N] elements, and the tuple it makes has
    [N] components. *)
Theorem X4_carray_tuple_defined (N : nat) (v : list double) :
  (is_Some (carray_tuple N v) <-> N = 0%nat \/ (N < length v)%nat)
  /\ forall t, carray_tuple N v = Some t -> length t = N.
Proof.
  split; [apply carray_tuple_is_Some|intros t; apply to_tuple_length].
Qed.

(** X5.  When [n >= N], as the adapter asserts, a call of it has a
    behaviour exactly when the reads of the unpacking fall inside [params]
    ([N] is 0 or [params] has more than [N] elements), the context tuple
    at [data] is alive, and the solver handle in it is live if the stop
    predicate returns true. *)
Theorem X5_optfunc_defined
    (N n : nat) (params : list double) (data : addr) (w : World U) :
  (N <= n)%nat ->
  is_Some (optfunc N n params data w)
  <-> (N = 0%nat \/ (N < length params)%nat)
      /\ exists fnptr self opt,
           stack w !! data = Some (fnptr, self, opt)
           /\ ((StopCriteria.stop_condition (m_stopcr self) (user w)).1 = true
               -> is_Some (ctxs w !! opt)).
Proof.
  intros Hn. rewrite optfunc_cases.
  pose proof (carray_tuple_is_Some N params) as Hdef.
  replace (N <=? n)%nat with true by (symmetry; apply Nat.leb_le; exact Hn).
  destruct (deref data w) as [[[[fnptr self] opt] w0]|] eqn:Hd.
  - apply deref_Some in Hd. destruct Hd as [Hdata _]. cbn [fst snd].
    destruct (carray_tuple N params) as [args|] eqn:Hargs.
    + cbn zeta.
      destruct (StopCriteria.stop_condition (m_stopcr self) (user w)).1 eqn:Hstop.
      * destruct (ctxs w !! opt) as [c|] eqn:Hopt.
        -- split; [intros _|intros _; eexists; reflexivity].
           split; [apply Hdef; eexists; reflexivity|].
           exists fnptr, self, opt. split; [exact Hdata|].
           intros _. exists c. exact Hopt.
        -- split; [intros [x Hx]; discriminate|].
           intros (_ & f' & s' & o' & Hd' & Hlive).
           assert (Heq : Some (fnptr, self, opt) = Some (f', s', o'))
             by exact (eq_trans (eq_sym Hdata) Hd').
           injection Heq as <- <- <-.
           destruct (Hlive Hstop) as [c Hc].
           assert (Hno : Some c = @None nlopt_ctx)
             by exact (eq_trans (eq_sym Hc) Hopt).
           discriminate.
      * split; [intros _|intros _; eexists; reflexivity].
        split; [apply Hdef; eexists; reflexivity|].
        exists fnptr, self, opt. split; [exact Hdata|].
        intros Hs. pose proof (eq_trans (eq_sym Hs) Hstop). discriminate.
    + split; [intros [x Hx]; discriminate|].
      intros (Hlen & _). apply Hdef in Hlen. destruct Hlen as [t Ht].
      discriminate.
  - apply deref_None in Hd.
    split; [intros [x Hx]; discriminate|].
    intros (_ & f' & s' & o' & Hd' & _).
    assert (Heq : @None (TData U) = Some (f', s', o'))
      by exact (eq_trans (eq_sym Hd) Hd').
    discriminate.
Qed.

(** X6.  A call of the adapter that returns has left every automatic
    object and every solver context as it was, but for the force-stop flag
    of the context named in its context tuple, which it may have set; what
    it added to the call log is the call of the predicate, the forced stop
    if there was one, and the application of the objective to [N]
    arguments, in this order. *)
Theorem X6_optfunc_frame
    (N n : nat) (params : list double) (data : addr) (w w' : World U)
    (ret : double) :
  optfunc N n params data w = Some (ret, w') ->
  stack w' = stack w
  /\ exists fnptr self opt,
       stack w !! data = Some (fnptr, self, opt)
       /\ (forall h, h <> opt -> ctxs w' !! h = ctxs w !! h)
       /\ (ctxs w' !! opt = ctxs w !! opt
           \/ ctxs w' !! opt = set_force_stop <$> ctxs w !! opt)
       /\ exists stop args,
            length args = N
            /\ log w'
               = log w ++ [StopCondition stop]
                   ++ (if stop then [ForceStop opt] else [])
                   ++ [Objective args ret].
Proof.
  rewrite optfunc_cases.
  destruct (N <=? n)%nat; [|discriminate].
  destruct (deref data w) as [[[[fnptr self] opt] w0]|] eqn:Hd; [|discriminate].
  apply deref_Some in Hd. destruct Hd as [Hdata _]. cbn [fst snd].
  destruct (carray_tuple N params) as [args|] eqn:Hargs; [|discriminate].
  assert (Hlen : length args = N) by (apply (to_tuple_length N params); exact Hargs).
  cbn zeta.
  destruct (StopCriteria.stop_condition (m_stopcr self) (user w)).1.
  - destruct (ctxs w !! opt) as [c|] eqn:Hopt; [|discriminate].
    intros [= <- <-]. cbn [ctxs stack log]. split; [reflexivity|].
    exists fnptr, self, opt. split; [exact Hdata|]. split.
    { intros h Hh. apply lookup_insert_ne. congruence. }
    split.
    { right. rewrite lookup_insert_eq. symmetry.
      exact (f_equal (fmap set_force_stop) Hopt). }
    exists true, args. split; [exact Hlen|reflexivity].
  - intros [= <- <-]. cbn [ctxs stack log]. split; [reflexivity|].
    exists fnptr, self, opt. split; [exact Hdata|]. split; [reflexivity|].
    split; [left; reflexivity|].
    exists false, args. split; [exact Hlen|reflexivity].
Qed.

End MoreAdapter.

(** X5 on the sample run: on three doubles the call has a behaviour, and
    on two it has none. *)
Lemma X5_witness :
  is_Some (detail.optfunc 2 3 [d 1; d 2; d 3] 0%nat Sample.running)
  /\ detail.optfunc 2 2 [d 1; d 2] 0%nat Sample.running = None.
Proof.
  split.
  - apply (X5_optfunc_defined 2 3 [d 1; d 2; d 3] 0%nat Sample.running).
    + lia.
    + split; [right; cbn; lia|].
      exists Sample.first_of_two, Sample.binding, 0%nat.
      split; [reflexivity|]. intros _. eexists. reflexivity.
  - reflexivity.
Defined.

(** X6 on the sample run: the flag of context 0 is set and nothing else
    changes. *)
Lemma X6_witness :
  exists w',
    detail.optfunc 2 3 [d 1; d 2; d 3] 0%nat Sample.running = Some (d 3, w')
    /\ detail.stack w' = detail.stack Sample.running
    /\ forall h, h <> 0%nat ->
         detail.ctxs w' !! h = detail.ctxs Sample.running !! h.
Proof.
  eexists. split; [reflexivity|].
  destruct (X6_optfunc_frame 2 3 [d 1; d 2; d 3] 0%nat Sample.running _ (d 3)
              eq_refl)
    as (Hstack & fnptr & self & opt & Hdata & Hother & _).
  split; [exact Hstack|].
  injection Hdata as _ _ <-. exact Hother.
Defined.

(** ** [set_up] *)

Section MoreSetUp.

Import detail.
Context {U : Type}.

Lemma set_up_defined_spec (this : NLoptOpt U) :
  Summary.set_up_defined this = true
  <-> is_Some (m_dir this)
      /\ (ltb zero (StopCriteria.max_iterations (m_stopcr this)) = true ->
          is_Some (to_int (StopCriteria.max_iterations (m_stopcr this)))).
Proof.
  unfold Summary.set_up_defined.
  destruct (m_dir this) as [dir|].
  - destruct (ltb zero _).
    + destruct (to_int _) as [v|]; cbn.
      * split; [intros _|reflexivity].
        split; [eexists; reflexivity|]. intros _. eexists. reflexivity.
      * split; [discriminate|].
        intros [_ H]. destruct (H eq_refl) as [x Hx]. discriminate.
    + cbn. split; [intros _|reflexivity].
      split; [eexists; reflexivity|discriminate].
  - rewrite andb_false_r. split; [discriminate|].
    intros [[x Hx] _]. discriminate.
Qed.

(** X7.  [set_up] has a behaviour exactly when its handle is live, the
    direction of the binding has been assigned and the iteration count,
    if positive, converts to [int].  It then changes that context only:
    every other context, the automatic objects and the state of the user's
    callables are as before, and the algorithm, the dimension, the local
    optimizer and the force-stop flag of the context itself are
    untouched. *)
Theorem X7_set_up_frame
    (this : NLoptOpt U) (N : nat) (nl : nlopt_opt) (func : Func U)
    (bounds : Bounds) (w : World U) :
  (is_Some (set_up this N nl func bounds w)
   <-> is_Some (ctxs w !! nl)
       /\ is_Some (m_dir this)
       /\ (ltb zero (StopCriteria.max_iterations (m_stopcr this)) = true ->
           is_Some (to_int (StopCriteria.max_iterations (m_stopcr this)))))
  /\ forall w',
       set_up this N nl func bounds w = Some (tt, w') ->
       stack w' = stack w
       /\ user w' = user w
       /\ (forall h, h <> nl -> ctxs w' !! h = ctxs w !! h)
       /\ exists c c',
            ctxs w !! nl = Some c /\ ctxs w' !! nl = Some c'
            /\ algorithm c' = algorithm c
            /\ dimension c' = dimension c
            /\ local_optimizer c' = local_optimizer c
            /\ force_stop c' = force_stop c.
Proof.
  pose proof (set_up_defined_spec this) as Hspec.
  destruct (ctxs w !! nl) as [c|] eqn:Hlive.
  - pose proof (set_up_live_world this N nl func bounds w c Hlive) as Hrun.
    destruct (Summary.set_up_defined this).
    + split.
      * split; [intros _|intros _; rewrite Hrun; eexists; reflexivity].
        split; [eexists; reflexivity|]. apply Hspec. reflexivity.
      * intros w' Hw'.
        assert (Heq : Some (tt, w') = Some (tt, _))
          by exact (eq_trans (eq_sym Hw') Hrun).
        injection Heq as ->. cbn [ctxs stack user].
        split; [reflexivity|]. split; [reflexivity|]. split.
        { intros h Hh. apply lookup_insert_ne. congruence. }
        exists c, (Summary.configured this N bounds (fresh (dom (stack w))) c).
        split; [reflexivity|]. split; [apply lookup_insert_eq|].
        apply configured_frame.
    + rewrite Hrun. split.
      * split; [intros [x Hx]; discriminate|].
        intros (_ & Hdef). apply Hspec in Hdef. discriminate.
      * intros w' Hw'. discriminate.
  - rewrite (set_up_dead this N nl func bounds w Hlive). split.
    + split; [intros [x Hx]; discriminate|intros ([x Hx] & _); discriminate].
    + intros w' Hw'. discriminate.
Qed.

(** X8.  The direction chosen decides the objective call.  After
    [to_min], [set_up] on a live context (for an iteration count of at
    most [INT_MAX]) calls [nlopt_set_min_objective], on that context, with
    the adapter for [N] and the address of its local context tuple, and
    never [nlopt_set_max_objective]; after [to_max] it is the other way
    round.  The tuple holds the objective, the binding and the handle, and
    it is no longer alive when [set_up] returns. *)
Theorem X8_direction_decides_objective
    (o : Optimizer.t U) (dir : OptDir) (N : nat) (nl : nlopt_opt)
    (func : Func U) (bounds : Bounds) (w : World U) (c : nlopt_ctx) :
  ctxs w !! nl = Some c ->
  0 <= StopCriteria.m_max_iterations (m_stopcr (Optimizer.m_opt o)) <= INT_MAX ->
  let o' := match dir with
            | MIN => Optimizer.to_min o
            | MAX => Optimizer.to_max o
            end in
  let data := fresh (dom (stack w)) in
  exists w' calls,
    set_up (Optimizer.m_opt o') N nl func bounds w = Some (tt, w')
    /\ log w' = log w ++ calls
    /\ objective <$> ctxs w' !! nl = Some (Some (dir, N, data))
    /\ tuples w' = tuples w ++ [(data, (func, Optimizer.m_opt o', nl))]
    /\ stack w' !! data = stack w !! data
    /\ stack w !! data = None
    /\ forall h n p,
         (SetMinObjective h n p ∈ calls
          <-> dir = MIN /\ h = nl /\ n = N /\ p = data)
         /\ (SetMaxObjective h n p ∈ calls
          <-> dir = MAX /\ h = nl /\ n = N /\ p = data).
Proof.
  intros Hlive Hrange o' data.
  set (this := Optimizer.m_opt o').
  assert (Hdir : m_dir this = Some (OptDir_to_int dir))
    by (unfold this, o'; destruct dir; reflexivity).
  assert (Hcap : 0 <= StopCriteria.m_max_iterations (m_stopcr this) <= INT_MAX)
    by (unfold this, o'; destruct dir; exact Hrange).
  assert (Hsel : Summary.direction this = Some dir)
    by (unfold Summary.direction; rewrite Hdir; destruct dir; reflexivity).
  eexists _, _. split.
  { rewrite (set_up_live_world _ _ _ _ _ _ _ Hlive).
    rewrite (set_up_defined_in_range this _ Hdir Hcap). reflexivity. }
  cbn [ctxs log stack tuples]. split; [reflexivity|].
  rewrite lookup_insert_eq. split.
  { cbn [fmap option_fmap option_map]. rewrite configured_objective, Hsel.
    reflexivity. }
  split; [reflexivity|]. split; [reflexivity|]. split; [apply fresh_stack|].
  intros h n p.
  destruct (set_up_calls_objective this N nl bounds data h n p) as [Cmin Cmax].
  fold data. rewrite Cmin, Cmax, Hsel.
  split; split; intuition (subst; try discriminate; try congruence; auto).
Qed.

End MoreSetUp.

(** X8 on the sample optimizer. *)
Lemma X8_witness :
  exists w',
    detail.set_up (Optimizer.m_opt Sample.minimizer) 2 0%nat
      Sample.first_of_two Sample.unit_square Sample.one_context = Some (tt, w')
    /\ detail.objective <$> detail.ctxs w' !! 0%nat
       = Some (Some (detail.MIN, 2%nat, 0%nat))
    /\ detail.stack w' !! 0%nat = None.
Proof.
  destruct (X8_direction_decides_objective
              (Optimizer.ctor (Some Sample.criteria)) detail.MIN 2 0%nat
              Sample.first_of_two Sample.unit_square Sample.one_context
              (detail.nlopt_ctx_new detail.NLOPT_LN_SBPLX 2))
    as (w' & calls & Hrun & _ & Hobj & _ & Hst & Hnone & _).
  - reflexivity.
  - cbn. unfold INT_MAX. lia.
  - exists w'. split; [exact Hrun|]. split; [exact Hobj|].
    exact (eq_trans Hst Hnone).
Defined.

(** ** The bounds loop *)

Section MoreLoop.

Lemma bounds_loop_spec (bounds : Bounds) (todo i : nat) (lb ub : list double) :
  (i + todo = length bounds)%nat ->
  length lb = length bounds -> length ub = length bounds ->
  Loop.bounds_loop bounds todo i lb ub
  = Some (take i lb ++ (Bound.min <$> drop i bounds),
          take i ub ++ (Bound.max <$> drop i bounds)).
Proof.
  unfold Bounds in *.
  revert i lb ub. induction todo as [|todo IH]; intros i lb ub Hi Hlb Hub.
  - cbn [Loop.bounds_loop].
    rewrite !drop_ge, !take_ge by lia. cbn. rewrite !app_nil_r. reflexivity.
  - cbn [Loop.bounds_loop]. unfold Bounds in *.
    destruct (lookup_lt_is_Some_2 bounds i) as [b Hb]; [lia|].
    destruct (lookup_lt_is_Some_2 lb i) as [x Hx]; [lia|].
    destruct (lookup_lt_is_Some_2 ub i) as [y Hy]; [lia|].
    rewrite Hb, Hx, Hy.
    rewrite IH by (rewrite ?length_insert; lia).
    rewrite (drop_S bounds b i Hb). cbn [fmap list_fmap].
    assert (Htake : forall (l : list double) v, (i < length l)%nat ->
              take (S i) (<[i := v]> l) = take i l ++ [v]).
    { intros l v Hl.
      rewrite (take_S_r (<[i := v]> l) i v)
        by (apply list_lookup_insert_eq; exact Hl).
      rewrite take_insert_ge by lia. reflexivity. }
    rewrite !Htake by lia. rewrite <- !app_assoc. reflexivity.
Qed.

(** X10.  The loop of [set_up] over the [N] dimensions assigns every
    element of its two local arrays, whatever they held before: element
    [i] of the lower bounds is [bounds[i].min()] and element [i] of the
    upper bounds is [bounds[i].max()].  These are the arrays handed to
    [nlopt_set_lower_bounds] and [nlopt_set_upper_bounds]. *)
Theorem X10_bounds_loop_fills_arrays
    (N : nat) (bounds : Bounds) (lb ub : list double) :
  length bounds = N -> length lb = N -> length ub = N ->
  Loop.set_up_bounds N bounds lb ub
  = Some (Bound.min <$> bounds, Bound.max <$> bounds).
Proof.
  intros Hb Hlb Hub. unfold Loop.set_up_bounds.
  rewrite bounds_loop_spec by lia. reflexivity.
Qed.

End MoreLoop.

(** X10 on the sample bounds, from arrays that held NaN. *)
Lemma X10_witness :
  Loop.set_up_bounds 2 Sample.unit_square [nan; nan] [nan; nan]
  = Some ([d 0; d 0], [d 1; d 1]).
Proof.
  apply (X10_bounds_loop_fills_arrays 2 Sample.unit_square [nan; nan] [nan; nan]);
    reflexivity.
Defined.

(** ** More on the setters *)

Section MoreCriteria.

Context {U : Type}.
Import StopCriteria.

(** X11.  [max_iterations(v)] converts [v] to [unsigned].  For [v] a whole
    number or a whole number and a half, [v = z / 2] with [|z| < 2^53], the
    field gets [v] truncated toward zero when that lies from 0 to
    2^32 - 1, and the call has no defined behaviour otherwise (so for every
    [v <= -1] and every [v >= 2^32]); it has none for NaN and for the
    infinities either. *)
Theorem X11_max_iterations_conversion
    (st : store U) (this : ref) (sc : t U) (z : Z) :
  st !! this = Some sc ->
  - 2 ^ 53 < z < 2 ^ 53 ->
  set_max_iterations this (half z) st
  = (if (0 <=? Z.quot z 2) && (Z.quot z 2 <=? UINT_MAX)
     then Some (this, <[this := assign_max_iterations (Z.quot z 2) sc]> st)
     else None)
  /\ set_max_iterations this nan st = None
  /\ set_max_iterations this (S754_infinity false) st = None
  /\ set_max_iterations this (S754_infinity true) st = None.
Proof.
  intros Hst Hz. unfold set_max_iterations, method, store in *. rewrite Hst.
  split; [|repeat split].
  unfold to_unsigned, half.
  rewrite trunc_binary_normalize by lia.
  change (2 ^ (- -1)) with 2.
  destruct ((0 <=? Z.quot z 2) && (Z.quot z 2 <=? UINT_MAX)); reflexivity.
Qed.



End MoreCriteria.

(** X11 on the default criteria: 2.5 is stored as 2, and -1 has no
    behaviour. *)
Lemma X11_witness :
  StopCriteria.set_max_iterations 0%nat (half 5) Sample.configs
  = Some (0%nat,
          <[0%nat := StopCriteria.assign_max_iterations 2 StopCriteria.ctor]>
            Sample.configs)
  /\ StopCriteria.set_max_iterations 0%nat (half (-2)) Sample.configs = None.
Proof.
  split.
  - apply (X11_max_iterations_conversion Sample.configs 0%nat StopCriteria.ctor 5);
      [reflexivity|lia].
  - apply (X11_max_iterations_conversion Sample.configs 0%nat StopCriteria.ctor (-2));
      [reflexivity|lia].
Defined.

